(** * MT3_Classifer: augmentation helpers and the classification head

    A shallow embedding of [src/data/transforms.py] and
    [src/models/classifier.py].

    The Python code is glue over three libraries: [torch] (tensors and
    torch's default random generators), Python's [random] module (the
    process-wide Mersenne Twister) and MONAI (the transform objects).
    The library operations the code calls are modelled in the modules
    [Torch], [PyRandom], [TorchRandom], [Monai] and [NN] from their
    documented behaviour; the functions of the repository are then
    transcribed on top of them, line by line, in [Transforms] and
    [Classifier].

    Conventions:
    - a Python exception is a [Raise] in the [result] type; a function
      that reads or advances a hidden generator runs in the monad [M]
      over the store it touches;
    - tensor elements that the code only moves around are of an
      arbitrary type; the random floats and the ratio of [create_mask]
      are the rationals they denote, and the comparison of a
      single-precision tensor with a number first rounds the number to
      single precision ([Float32.round]); the scalars of the linear
      layer are abstract, with their sum and product;
    - the random generators are interfaces with the documented ranges
      of their draws as laws; nothing is assumed about distributions. *)

From Stdlib Require Import ZArith QArith Qpower Qround List Permutation Lia.
From stdpp Require Import base option list gmap strings.

Local Open Scope nat_scope.

(** ** Python exceptions and the state-and-exception monad *)

Inductive exn : Type :=
  | IndexError
  | KeyError
  | TypeError
  | ValueError
  | RuntimeError.

Inductive result (X : Type) : Type :=
  | Ok (x : X)
  | Raise (e : exn).
Arguments Ok {X} x.
Arguments Raise {X} e.

(** A computation over a mutable store [S] that may raise.  The store
    survives a raise, as the interpreter's state does. *)
Definition M (S X : Type) : Type := S -> result X * S.

Definition ret {S X} (x : X) : M S X := fun s => (Ok x, s).
Definition bind {S X Y} (m : M S X) (k : X -> M S Y) : M S Y :=
  fun s => match m s with
           | (Ok x, s') => k x s'
           | (Raise e, s') => (Raise e, s')
           end.
Definition lift {S X} (r : result X) : M S X := fun s => (r, s).

Declare Scope py_scope.
Delimit Scope py_scope with py.
Notation "x <- m ;; k" := (bind m (fun x => k))
  (at level 100, m at next level, right associativity) : py_scope.

(** A list comprehension [[f x for x in xs]]: left to right, stopping at
    the first raise. *)
Fixpoint for_each {S X Y} (f : X -> M S Y) (xs : list X) : M S (list Y) :=
  match xs with
  | [] => ret []
  | x :: xs' =>
      (y <- f x ;; ys <- for_each f xs' ;; ret (y :: ys))%py
  end.

(** ** torch: tensors *)

(** A tensor is its sizes and its elements in row-major (contiguous)
    order, which is how [torch] lays out a freshly made tensor. *)
Record Tensor (A : Type) : Type := mkTensor {
  shape : list nat;
  data : list A
}.
Arguments mkTensor {A} shape data.
Arguments shape {A} t.
Arguments data {A} t.

Module Torch.

Definition numel (s : list nat) : nat := foldr Nat.mul 1 s.

(** Offset of a multi-index in row-major order, and its inverse. *)
Fixpoint ravel (s idx : list nat) : nat :=
  match s, idx with
  | _ :: s', i :: idx' => i * numel s' + ravel s' idx'
  | _, _ => 0
  end.

Fixpoint unravel (s : list nat) (n : nat) : list nat :=
  match s with
  | [] => []
  | _ :: s' => n / numel s' :: unravel s' (n mod numel s')
  end.

(** [idx] addresses an element of a tensor of sizes [s]. *)
Definition in_range (s idx : list nat) : Prop := Forall2 lt idx s.

Section Elements.
Context {A : Type} `{Inhabited A}.

(** The storage holds exactly the elements the sizes announce. *)
Definition wf (t : Tensor A) : Prop := length (data t) = numel (shape t).

Definition rank (t : Tensor A) : nat := length (shape t).

(** [t[i0, i1, ...]] for an in-range index. *)
Definition get (t : Tensor A) (idx : list nat) : A :=
  nth (ravel (shape t) idx) (data t) inhabitant.

(** The tensor of sizes [s] whose element at [idx] is [f idx]. *)
Definition tabulate (s : list nat) (f : list nat -> A) : Tensor A :=
  mkTensor s (map (fun n => f (unravel s n)) (seq 0 (numel s))).

(** [Tensor.shape[d]]. *)
Definition size (t : Tensor A) (d : nat) : result nat :=
  match shape t !! d with
  | Some n => Ok n
  | None => Raise IndexError
  end.

(** *** torch.transpose and torch.flip *)

(** Exchange the entries at positions [d0] and [d1]. *)
Definition swap_dims (d0 d1 : nat) (l : list nat) : list nat :=
  <[d0 := nth d1 l 0]> (<[d1 := nth d0 l 0]> l).

(** [t.transpose(d0, d1)]: [out[.., i, .., j, ..] = t[.., j, .., i, ..]]. *)
Definition transpose (t : Tensor A) (d0 d1 : nat) : Tensor A :=
  tabulate (swap_dims d0 d1 (shape t))
           (fun idx => get t (swap_dims d0 d1 idx)).

(** Mirror the coordinate along dimension [d]: [i] becomes [n - 1 - i]. *)
Definition flip_index (s : list nat) (d : nat) (idx : list nat) : list nat :=
  <[d := nth d s 0 - 1 - nth d idx 0]> idx.

(** [t.flip(dims)]: reverse the order of the elements along each of
    [dims]. *)
Definition flip (t : Tensor A) (dims : list nat) : Tensor A :=
  tabulate (shape t)
           (fun idx => get t (foldr (flip_index (shape t)) idx dims)).

(** *** torch.rot90

    The checks of [rot90], in their order: two rotation dimensions are
    expected and a tensor of two dimensions or more ([RuntimeError]);
    each rotation dimension must be a dimension of the tensor
    ([IndexError], "Dimension out of range"); the two must differ
    ([RuntimeError]).  Then [k] is taken modulo 4, and the four cases
    are [flip(d1).transpose(d0, d1)], [flip(d0, d1)],
    [flip(d0).transpose(d0, d1)] and a plain copy. *)
Definition rot90 (t : Tensor A) (k : Z) (dims : list nat) : result (Tensor A) :=
  match dims with
  | [d0; d1] =>
      if decide (2 <= rank t) then
        if decide (d0 < rank t /\ d1 < rank t) then
          if decide (d0 <> d1) then
            Ok (match (k mod 4)%Z with
                | 1%Z => transpose (flip t [d1]) d0 d1
                | 2%Z => flip t [d0; d1]
                | 3%Z => transpose (flip t [d0]) d0 d1
                | _ => t
                end)
          else Raise RuntimeError
        else Raise IndexError
      else Raise RuntimeError
  | _ => Raise RuntimeError
  end.

(** *** Indexing *)

(** [t[:, ix]] for a one-dimensional index tensor [ix]: along
    dimension 1 the result holds [t[:, ix[0]]], [t[:, ix[1]]], ...; an
    index past the end raises. *)
Definition index_dim1 (t : Tensor A) (ix : list nat) : result (Tensor A) :=
  match shape t with
  | n0 :: n1 :: rest =>
      if decide (Forall (fun i => i < n1) ix) then
        Ok (tabulate (n0 :: length ix :: rest)
              (fun idx => get t (<[1 := nth (nth 1 idx 0) ix 0]> idx)))
      else Raise IndexError
  | _ => Raise IndexError
  end.

(** The elements of [t[:, i]]: dimension 1 is dropped. *)
Definition slice_dim1 (t : Tensor A) (i : nat) : Tensor A :=
  tabulate (match shape t with
            | n0 :: _ :: rest => n0 :: rest
            | s => s
            end)
           (fun idx => match idx with
                       | i0 :: idx' => get t (i0 :: i :: idx')
                       | [] => inhabitant
                       end).

(** [t[:, i]], which raises when dimension 1 is absent or has no
    position [i]. *)
Definition select_dim1 (t : Tensor A) (i : nat) : result (Tensor A) :=
  match shape t with
  | _ :: n1 :: _ =>
      if decide (i < n1) then Ok (slice_dim1 t i) else Raise IndexError
  | _ => Raise IndexError
  end.

(** All the slices [t[:, 0]], [t[:, 1]], ... along dimension 1. *)
Definition slices_dim1 (t : Tensor A) : list (Tensor A) :=
  map (slice_dim1 t) (seq 0 (nth 1 (shape t) 0)).

(** [t[i]], the [i]-th entry along dimension 0. *)
Definition select_dim0 (t : Tensor A) (i : nat) : Tensor A :=
  tabulate (tail (shape t)) (fun idx => get t (i :: idx)).

(** Iterating over a tensor yields [t[0]], [t[1]], ...; a tensor
    without dimensions cannot be iterated. *)
Definition iterate (t : Tensor A) : result (list (Tensor A)) :=
  match shape t with
  | n0 :: _ => Ok (map (select_dim0 t) (seq 0 n0))
  | [] => Raise TypeError
  end.

(** [torch.stack(ts)]: a new leading dimension over tensors of one
    shape; the list must not be empty. *)
Definition stack (ts : list (Tensor A)) : result (Tensor A) :=
  match ts with
  | [] => Raise RuntimeError
  | t0 :: _ =>
      if decide (Forall (fun t => shape t = shape t0) ts) then
        Ok (tabulate (length ts :: shape t0)
              (fun idx => match idx with
                          | i :: idx' => get (nth i ts t0) idx'
                          | [] => inhabitant
                          end))
      else Raise RuntimeError
  end.
End Elements.

End Torch.

(** ** Random number generators

    The code draws from two hidden, process-wide generators: the one of
    Python's [random] module and torch's default generator (one per
    device).  Neither is seeded by the code.  A generator is an opaque
    state with its drawing operations; the laws are the documented
    ranges of the draws. *)

#[global] Instance Q_inhabited : Inhabited Q := populate 0%Q.

Definition Qltb (x y : Q) : bool :=
  if Qlt_le_dec x y then true else false.

Definition unit_interval (u : Q) : Prop := (0 <= u)%Q /\ (u < 1)%Q.

Module PyRandom.

Class Generator (G : Type) : Type := {
  (** [random.randint(a, b)]: an integer [N] with [a <= N <= b]. *)
  randint : Z -> Z -> G -> Z * G;
  (** [random.random()]: a float in [[0.0, 1.0)]. *)
  random : G -> Q * G
}.

Class Lawful (G : Type) `{Generator G} : Prop := {
  randint_range : forall (a b : Z) (g : G),
    (a <= b)%Z -> (a <= fst (randint a b g) <= b)%Z;
  random_range : forall g : G, unit_interval (fst (random g))
}.

End PyRandom.

Module TorchRandom.

Class Generator (G : Type) : Type := {
  (** [torch.randperm(n)]: a random permutation of [0 .. n-1]. *)
  randperm : nat -> G -> list nat * G;
  (** [n] draws of [torch.rand], each in [[0, 1)]. *)
  rand : nat -> G -> list Q * G
}.

Class Lawful (G : Type) `{Generator G} : Prop := {
  randperm_perm : forall (n : nat) (g : G),
    Permutation (fst (randperm n g)) (seq 0 n);
  rand_length : forall (n : nat) (g : G), length (fst (rand n g)) = n;
  rand_range : forall (n : nat) (g : G), Forall unit_interval (fst (rand n g))
}.

End TorchRandom.

Inductive device : Type :=
  | cpu
  | cuda (index : nat).

#[global] Instance device_eq_dec : EqDecision device.
Proof. solve_decision. Defined.

(** The hidden state the helpers read and write: Python's generator and
    torch's default generator of every device. *)
Record World (PG TG : Type) : Type := mkWorld {
  py_gen : PG;
  torch_gen : device -> TG
}.
Arguments mkWorld {PG TG} py_gen torch_gen.
Arguments py_gen {PG TG} w.
Arguments torch_gen {PG TG} w dev.

Section Draws.
Context {PG TG : Type}.
Context `{PyRandom.Generator PG} `{TorchRandom.Generator TG}.

Definition set_torch_gen (w : World PG TG) (dev : device) (g : TG)
  : World PG TG :=
  mkWorld (py_gen w)
          (fun d => if decide (d = dev) then g else torch_gen w d).

(** [random.randint(a, b)] on the module's generator. *)
Definition py_randint (a b : Z) : M (World PG TG) Z :=
  fun w =>
    let r := PyRandom.randint a b (py_gen w) in
    (Ok (fst r), mkWorld (snd r) (torch_gen w)).

(** [random.random()] on the module's generator. *)
Definition py_random : M (World PG TG) Q :=
  fun w =>
    let r := PyRandom.random (py_gen w) in
    (Ok (fst r), mkWorld (snd r) (torch_gen w)).

(** [torch.randperm(n)]: a one-dimensional index tensor drawn from the
    CPU generator. *)
Definition torch_randperm (n : nat) : M (World PG TG) (list nat) :=
  fun w =>
    let r := TorchRandom.randperm n (torch_gen w cpu) in
    (Ok (fst r), set_torch_gen w cpu (snd r)).

(** [torch.rand(size, device=dev)]: one draw per element, from the
    generator of [dev]. *)
Definition torch_rand (sz : list nat) (dev : device)
  : M (World PG TG) (Tensor Q) :=
  fun w =>
    let r := TorchRandom.rand (Torch.numel sz) (torch_gen w dev) in
    (Ok (mkTensor sz (fst r)), set_torch_gen w dev (snd r)).

End Draws.

(** ** Single precision

    [torch.rand] makes a tensor of single-precision floats, and a
    number compared with such a tensor is first converted to single
    precision: rounded to the nearest of the floats, a tie going to the
    one with an even significand (24 bits, exponents from -126 up,
    below which the spacing stays that of exponent -126).  The
    exponent is not bounded above here: a number beyond the largest
    float rounds to infinity in torch, which compares with the draws,
    all below 1, as every number from 1 on does. *)

Module Float32.

Definition pow2 (e : Z) : Q := (2 ^ e)%Q.

(** For [a > 0], the [e] with [2^e <= a < 2^(e+1)]. *)
Definition floor_log2 (a : Q) : Z :=
  let k := (Z.log2 (Qnum a) - Z.log2 (Z.pos (Qden a)))%Z in
  if Qle_bool (pow2 k) a then k else (k - 1)%Z.

(** The nearest integer, a tie going to the even one. *)
Definition round_half_even (x : Q) : Z :=
  let f := Qfloor x in
  match (x - inject_Z f ?= 1 # 2)%Q with
  | Lt => f
  | Gt => (f + 1)%Z
  | Eq => if Z.even f then f else (f + 1)%Z
  end.

Definition exponent (a : Q) : Z := Z.max (floor_log2 a) (-126).

(** The float nearest to [a > 0]: a multiple of the unit in the last
    of the 24 places of [a]'s exponent. *)
Definition round_pos (a : Q) : Q :=
  let ulp := pow2 (exponent a - 23) in
  (inject_Z (round_half_even (a / ulp)) * ulp)%Q.

Definition round (q : Q) : Q :=
  match (q ?= 0)%Q with
  | Eq => 0%Q
  | Gt => round_pos q
  | Lt => (- round_pos (- q))%Q
  end.


End Float32.

(** [t < c] for a single-precision tensor and a number: [c] is
    converted to single precision, then compared elementwise; the
    shape is kept. *)
Definition lt_scalar (t : Tensor Q) (c : Q) : Tensor bool :=
  mkTensor (shape t) (map (fun u => Qltb u (Float32.round c)) (data t)).

(** [d[key]] on a Python dict. *)
Definition getitem `{Countable K} {V : Type} (d : gmap K V) (key : K) : result V :=
  match d !! key with
  | Some v => Ok v
  | None => Raise KeyError
  end.

(** ** MONAI: transform objects

    The transforms are library objects; the code only constructs them.
    A transform is recorded as its class and the arguments it was
    built with, in the order the code passes them. *)

Module Monai.

(** A numeric literal of the source: a decimal, [torch.pi], or a
    quotient of two. *)
Inductive number : Type :=
  | Lit (q : Q)
  | TorchPi
  | Div (a b : number).

Inductive transform : Type :=
  | LoadImaged (keys : string) (image_only : bool) (reader : string)
  | EnsureChannelFirstd (keys : string) (strict_check : bool)
  | Orientationd (keys : string) (axcodes : string)
  | NormalizeIntensityd (keys : string) (subtrahend divisor : number)
  | RandFlipd (keys : string) (prob : number) (spatial_axis : list Z)
  | RandAffined (keys : string) (prob : number)
      (rotate_range translate_range scale_range : list number)
      (padding_mode : string)
  | RandAdjustContrastd (keys : string) (prob : number)
      (gamma : number * number)
  | RandScaleIntensityd (keys : string) (factors prob : number)
  | RandShiftIntensityd (keys : string) (offsets prob : number)
  | RandGaussianNoised (keys : string) (prob mean std : number)
  | RandGaussianSmoothd (keys : string) (prob : number)
      (sigma_x sigma_y sigma_z : number * number)
  | RandCoarseDropoutd (keys : string) (prob : number) (holes : Z)
      (spatial_size : list Z) (max_holes : Z) (fill_value : number)
  | EnsureTyped (keys : string).

(** [Compose(transforms)]: the stages, applied first to last. *)
Record Compose : Type := mkCompose { transforms : list transform }.

Definition is_coarse_dropout (t : transform) : bool :=
  match t with
  | RandCoarseDropoutd _ _ _ _ _ _ => true
  | _ => false
  end.

End Monai.

(** ** src/data/transforms.py *)

Module Transforms.
Import Monai.

Definition get_monai_augment (with_coarse : bool) : Compose :=
  let aug := [
    RandFlipd "image" (Lit 0.5) [0%Z];
    RandFlipd "image" (Lit 0.5) [1%Z];
    RandFlipd "image" (Lit 0.5) [2%Z];
    RandAffined "image" (Lit 0.7)
      (repeat (Div TorchPi (Lit 36)) 3)
      [Lit 4; Lit 4; Lit 4]
      (repeat (Lit 0.05) 3)
      "border";
    RandAdjustContrastd "image" (Lit 0.3) (Lit 0.7, Lit 1.4);
    RandScaleIntensityd "image" (Lit 0.15) (Lit 0.3);
    RandShiftIntensityd "image" (Lit 0.10) (Lit 0.3);
    RandGaussianNoised "image" (Lit 0.25) (Lit 0) (Lit 0.01);
    RandGaussianSmoothd "image" (Lit 0.15)
      (Lit 0, Lit 1) (Lit 0, Lit 1) (Lit 0, Lit 1)
  ] in
  let aug :=
    if with_coarse then
      aug ++ [RandCoarseDropoutd "image" (Lit 0.2) 4 [16%Z; 16%Z; 16%Z] 4
                (Lit 0)]
    else aug in
  let aug := aug ++ [EnsureTyped "image"] in
  mkCompose aug.

Definition build_transforms (mean std : number)
  : Compose * Compose * Compose :=
  let load_tf := mkCompose [
    LoadImaged "image" false "ITKReader";
    EnsureChannelFirstd "image" false;
    Orientationd "image" "SAR";
    NormalizeIntensityd "image" mean std;
    EnsureTyped "image"
  ] in
  (load_tf, get_monai_augment false, get_monai_augment true).

Section Helpers.
Context {A : Type} `{Inhabited A}.
Context {PG TG : Type}.
Context `{PyRandom.Generator PG} `{TorchRandom.Generator TG}.

Definition dims_map : gmap Z (nat * nat) :=
  {[ 0%Z := (2, 3); 1%Z := (1, 3); 2%Z := (1, 2) ]}.

Definition random_rotation_single (vol : Tensor A)
  : M (World PG TG) (Tensor A * Z) :=
  (axis <- py_randint 0 2 ;;
   k <- py_randint 0 3 ;;
   dims <- lift (getitem dims_map axis) ;;
   out <- lift (Torch.rot90 vol k [fst dims; snd dims]) ;;
   ret (out, (axis * 4 + k)%Z))%py.

Definition random_jigsaw_single (vol : Tensor A)
  : M (World PG TG) (Tensor A * Z) :=
  (u <- py_random ;;
   if Qltb u 0.5 then
     n <- lift (Torch.size vol 1) ;;
     perm <- torch_randperm n ;;
     out <- lift (Torch.index_dim1 vol perm) ;;
     ret (out, 1%Z)
   else ret (vol, 0%Z))%py.

(** [tf] is any callable from a sample mapping to a sample mapping; it
    may draw random numbers, keep state and raise, so it runs in the
    monad over a store [S] of its own. *)
Definition augment_batch {S : Type} (imgs : Tensor A)
    (tf : gmap string (Tensor A) -> M S (gmap string (Tensor A)))
  : M S (Tensor A) :=
  (samples <- lift (Torch.iterate imgs) ;;
   outs <- for_each (fun s => d <- tf {[ "image" := s ]} ;;
                              lift (getitem d "image")) samples ;;
   lift (Torch.stack outs))%py.

Definition create_mask (shape : list nat) (ratio : Q) (dev : device)
  : M (World PG TG) (Tensor bool) :=
  (u <- torch_rand shape dev ;;
   ret (lt_scalar u ratio))%py.

End Helpers.
End Transforms.

(** ** torch.nn.Linear

    Scalars are kept abstract: only the operations the layer performs
    on them are named, so nothing depends on how floating-point
    arithmetic rounds. *)

Module NN.
Section Linear.
Context {R : Type} `{Inhabited R}.
Variables (radd rmul : R -> R -> R) (rzero : R).

(** [nn.Linear(in_features, out_features)] with its parameters: the
    weight of shape [(out_features, in_features)] and the bias of shape
    [(out_features,)]. *)
Record Linear : Type := mkLinear {
  in_features : nat;
  out_features : nat;
  weight : Tensor R;
  bias : Tensor R
}.

(** The [j]-th output for the input vector [x[pre, :]]:
    [sum_e x[pre, e] * weight[j, e] + bias[j]].  The sum is taken here
    in one order, left to right.  torch leaves the order to the
    kernel, which picks it from the shapes of the operands: the
    properties below compare runs on inputs of one shape only. *)
Definition affine (l : Linear) (x : Tensor R) (pre : list nat) (j : nat) : R :=
  radd (foldl (fun acc e =>
                 radd acc (rmul (Torch.get x (pre ++ [e]))
                                (Torch.get (weight l) [j; e])))
              rzero (seq 0 (in_features l)))
       (Torch.get (bias l) [j]).

(** [lin(x)]: the layer acts on the last dimension, which must have
    size [in_features]. *)
Definition Linear_forward (l : Linear) (x : Tensor R) : result (Tensor R) :=
  match last (shape x) with
  | Some e =>
      if decide (e = in_features l) then
        Ok (Torch.tabulate (removelast (shape x) ++ [out_features l])
              (fun idx => affine l x (removelast idx) (List.last idx 0)))
      else Raise RuntimeError
  | None => Raise RuntimeError
  end.

End Linear.
End NN.

(** ** src/models/classifier.py *)

Module Classifier.
Section Head.
Context {R : Type} `{Inhabited R}.
Variables (radd rmul : R -> R -> R) (rzero : R).

Record EdemaHead : Type := mkEdemaHead { lin : @NN.Linear R }.

(** [EdemaHead(emb_size, classes)]; the initial values of the
    parameters are the caller's. *)
Definition EdemaHead_init (emb_size classes : nat) (w b : Tensor R)
  : EdemaHead :=
  mkEdemaHead (NN.mkLinear emb_size classes w b).

Definition forward (m : EdemaHead) (x : Tensor R) : result (Tensor R) :=
  match Torch.select_dim1 x 0 with
  | Ok cls => NN.Linear_forward radd rmul rzero (lin m) cls
  | Raise e => Raise e
  end.

End Head.
End Classifier.

(** ** A scripted generator

    A generator that replays a script of raw integers, one per draw.
    It satisfies the laws of both interfaces and reaches every outcome,
    so it serves to run the helpers on chosen draws. *)

Module Scripted.

Definition script : Type := list Z.

Definition next (g : script) : Z * script :=
  match g with
  | [] => (0%Z, [])
  | h :: t => (h, t)
  end.

Definition randint (a b : Z) (g : script) : Z * script :=
  let (h, t) := next g in ((a + h mod (b - a + 1))%Z, t).

(** A multiple of [2^-53] in [[0, 1)], as [random.random()] returns. *)
Definition random (g : script) : Q * script :=
  let (h, t) := next g in
  (Qmake (h mod 9007199254740992) 9007199254740992, t).

(** Draw [n] elements from [pool] without replacement. *)
Fixpoint pick (n : nat) (pool : list nat) (g : script) : list nat * script :=
  match n with
  | O => ([], g)
  | S n' =>
      let (h, t) := next g in
      let i := Z.to_nat (h mod Z.of_nat (length pool)) in
      match pool !! i with
      | Some x => let (r, g') := pick n' (delete i pool) t in (x :: r, g')
      | None => ([], t)
      end
  end.

Definition randperm (n : nat) (g : script) : list nat * script :=
  pick n (seq 0 n) g.

(** [n] multiples of [2^-24] in [[0, 1)], as [torch.rand] returns for
    single precision. *)
Fixpoint rand (n : nat) (g : script) : list Q * script :=
  match n with
  | O => ([], g)
  | S n' =>
      let (h, t) := next g in
      let (r, g') := rand n' t in
      (Qmake (h mod 16777216) 16777216 :: r, g')
  end.

#[global] Instance py_generator : PyRandom.Generator script :=
  {| PyRandom.randint := randint; PyRandom.random := random |}.

#[global] Instance torch_generator : TorchRandom.Generator script :=
  {| TorchRandom.randperm := randperm; TorchRandom.rand := rand |}.

(** A store whose Python generator replays [p] and whose torch
    generators all replay [t]. *)
Definition world (p t : script) : World script script :=
  mkWorld p (fun _ => t).

End Scripted.

(** ** Sample data *)

Module Samples.

(** A volume of shape [(1, 2, 2, 2)] holding [1 .. 8]. *)
Definition vol : Tensor Z :=
  mkTensor [1; 2; 2; 2] [1; 2; 3; 4; 5; 6; 7; 8]%Z.

(** A batch of two such volumes, and an empty batch of the same sample
    shape. *)
Definition batch : Tensor Z :=
  mkTensor [2; 1; 2; 2; 2]
    [1; 2; 3; 4; 5; 6; 7; 8; 9; 10; 11; 12; 13; 14; 15; 16]%Z.

Definition empty_batch : Tensor Z := mkTensor [0; 1; 2; 2; 2] [].

(** A transform that returns its sample as it is. *)
Definition identity_tf (d : gmap string (Tensor Z))
  : M unit (gmap string (Tensor Z)) := ret d.

(** Token embeddings of shape [(1, 2, 2)] that agree on token 0, and a
    head over them. *)
Definition tokens : Tensor Z := mkTensor [1; 2; 2] [1; 2; 3; 4]%Z.
Definition tokens' : Tensor Z := mkTensor [1; 2; 2] [1; 2; 70; 80]%Z.

Definition head : @Classifier.EdemaHead Z :=
  Classifier.EdemaHead_init 2 2
    (mkTensor [2; 2] [1; 0; 0; 1]%Z) (mkTensor [2] [10; 20]%Z).

End Samples.

(** ** Vocabulary of the specification *)

Module Spec.

(** The fixed axis-to-plane table, as the specification words it:
    axis 0 turns in dimensions (2, 3), axis 1 in (1, 3), axis 2 in
    (1, 2). *)
Definition rotation_plane (axis : Z) : list nat :=
  if decide (axis = 0%Z) then [2; 3]
  else if decide (axis = 1%Z) then [1; 3]
  else [1; 2].

(** The three planes of the table. *)
Definition planes : list (list nat) := [[2; 3]; [1; 3]; [1; 2]].

(** The twelve (axis, turns) pairs, axis-major. *)
Definition rotation_pairs : list (Z * Z) :=
  a ← seqZ 0 3; k ← seqZ 0 4; [(a, k)].

Definition rotation_label (p : Z * Z) : Z := (fst p * 4 + snd p)%Z.

(** [n] successive quarter turns in the plane [dims]. *)
Definition quarter_turns {A : Type} `{Inhabited A}
    (n : nat) (dims : list nat) (t : Tensor A) : result (Tensor A) :=
  Nat.iter n (fun r => match r with
                       | Ok x => Torch.rot90 x 1 dims
                       | Raise e => Raise e
                       end) (Ok t).


(** A helper whose result is fixed by the state of Python's generator
    alone, and one whose result is fixed by that state together with
    the state of torch's CPU generator. *)
Definition determined_by_python_generator {PG TG X Y : Type}
    (f : X -> M (World PG TG) Y) : Prop :=
  forall (x : X) (w1 w2 : World PG TG),
    py_gen w1 = py_gen w2 -> fst (f x w1) = fst (f x w2).

Definition determined_by_both_generators {PG TG X Y : Type}
    (f : X -> M (World PG TG) Y) : Prop :=
  forall (x : X) (w1 w2 : World PG TG),
    py_gen w1 = py_gen w2 -> torch_gen w1 cpu = torch_gen w2 cpu ->
    fst (f x w1) = fst (f x w2).


(** [tf] applied to the samples [xs] one after the other, each wrapped
    as [{"image": x}], starting from the store [st]: it returns the
    images [ys], in the same order, and leaves the store [st']. *)
Inductive applied_in_order {S A : Type}
    (tf : gmap string (Tensor A) -> M S (gmap string (Tensor A)))
  : list (Tensor A) -> S -> list (Tensor A) -> S -> Prop :=
  | applied_nil (st : S) : applied_in_order tf [] st [] st
  | applied_cons (x : Tensor A) (xs : list (Tensor A)) (st st1 st2 : S)
      (d : gmap string (Tensor A)) (y : Tensor A) (ys : list (Tensor A)) :
      tf {[ "image" := x ]} st = (Ok d, st1) ->
      d !! "image" = Some y ->
      applied_in_order tf xs st1 ys st2 ->
      applied_in_order tf (x :: xs) st (y :: ys) st2.

(** The body of the comprehension in [augment_batch]. *)
Definition on_sample {S A : Type}
    (tf : gmap string (Tensor A) -> M S (gmap string (Tensor A)))
    (s : Tensor A) : M S (Tensor A) :=
  (d <- tf {[ "image" := s ]} ;; lift (getitem d "image"))%py.

(** A transform that returns every image as it received it, whatever
    it does to its store. *)
Definition acts_as_identity {S A : Type}
    (tf : gmap string (Tensor A) -> M S (gmap string (Tensor A))) : Prop :=
  forall (x : Tensor A) (st : S),
    exists (d : gmap string (Tensor A)) (st' : S),
      tf {[ "image" := x ]} st = (Ok d, st') /\ d !! "image" = Some x.


(** The draws [torch.rand(sz, device=dev)] makes on the store [w], one
    per element. *)
Definition mask_draws {PG TG : Type} `{TorchRandom.Generator TG}
    (sz : list nat) (dev : device) (w : World PG TG) : Tensor Q :=
  mkTensor sz (fst (TorchRandom.rand (Torch.numel sz) (torch_gen w dev))).

End Spec.

(** ** src/models/classifier.py: the full model

    [M3T_Edema] wraps an [Encoder] from [src/models/encoder.py], a file
    that is not among the sources at hand.  The encoder is a parameter:
    a constructor from the configuration and a forward pass that
    returns a pair, as the unpacking [cls, _ = self.encoder(x)]
    requires; either may raise. *)

Module Model.
Section M3T.
Context {R : Type} `{Inhabited R}.
Variables (radd rmul : R -> R -> R) (rzero : R).
Context {Encoder Aux : Type}.
Variable Encoder_init : gmap string nat -> result Encoder.
Variable Encoder_forward : Encoder -> Tensor R -> result (Tensor R * Aux).

Record M3T_Edema : Type := mkM3T_Edema {
  encoder : Encoder;
  head : @Classifier.EdemaHead R
}.

(** [M3T_Edema(cfg)]: the encoder is built first, then
    [EdemaHead(cfg["emb_size"], 2)]; [w] and [b] are the initial values
    of the head's parameters. *)
Definition M3T_Edema_init (cfg : gmap string nat) (w b : Tensor R)
  : result M3T_Edema :=
  match Encoder_init cfg with
  | Ok enc =>
      match getitem cfg "emb_size" with
      | Ok emb_size =>
          Ok (mkM3T_Edema enc (Classifier.EdemaHead_init emb_size 2 w b))
      | Raise e => Raise e
      end
  | Raise e => Raise e
  end.

Definition M3T_Edema_forward (m : M3T_Edema) (x : Tensor R)
  : result (Tensor R) :=
  match Encoder_forward (encoder m) x with
  | Ok (cls, _) => Classifier.forward radd rmul rzero (head m) cls
  | Raise e => Raise e
  end.

End M3T.
End Model.

(** ** More vocabulary *)

Module Stage.
Import Monai.

(** The [keys] argument a transform was built with. *)
Definition keys_of (t : transform) : string :=
  match t with
  | LoadImaged k _ _ => k
  | EnsureChannelFirstd k _ => k
  | Orientationd k _ => k
  | NormalizeIntensityd k _ _ => k
  | RandFlipd k _ _ => k
  | RandAffined k _ _ _ _ _ => k
  | RandAdjustContrastd k _ _ => k
  | RandScaleIntensityd k _ _ => k
  | RandShiftIntensityd k _ _ => k
  | RandGaussianNoised k _ _ _ => k
  | RandGaussianSmoothd k _ _ _ _ => k
  | RandCoarseDropoutd k _ _ _ _ _ => k
  | EnsureTyped k => k
  end.

(** The [prob] argument of a random transform; the others have none. *)
Definition prob_of (t : transform) : option number :=
  match t with
  | RandFlipd _ p _ => Some p
  | RandAffined _ p _ _ _ _ => Some p
  | RandAdjustContrastd _ p _ => Some p
  | RandScaleIntensityd _ _ p => Some p
  | RandShiftIntensityd _ _ p => Some p
  | RandGaussianNoised _ p _ _ => Some p
  | RandGaussianSmoothd _ p _ _ _ => Some p
  | RandCoarseDropoutd _ p _ _ _ _ => Some p
  | _ => None
  end.

(** A probability written as a literal between 0 and 1. *)
Definition valid_prob (p : number) : Prop :=
  exists q : Q, p = Lit q /\ (0 <= q)%Q /\ (q <= 1)%Q.

Definition is_normalize (t : transform) : bool :=
  match t with
  | NormalizeIntensityd _ _ _ => true
  | _ => false
  end.

End Stage.

Module MoreSamples.

(** A volume of shape [(1, 1, 2, 2)]: a single depth slice. *)
Definition flat_vol : Tensor Z := mkTensor [1; 1; 2; 2] [1; 2; 3; 4]%Z.

(** A volume of shape [(1, 2, 3, 2)]: its spatial sizes differ. *)
Definition slab : Tensor Z :=
  mkTensor [1; 2; 3; 2] [1; 2; 3; 4; 5; 6; 7; 8; 9; 10; 11; 12]%Z.

(** A tensor of three dimensions and of one. *)
Definition cube3 : Tensor Z := mkTensor [2; 2; 2] [1; 2; 3; 4; 5; 6; 7; 8]%Z.
Definition vector : Tensor Z := mkTensor [3] [1; 2; 3]%Z.


(** A transform that raises on the images whose first element is 9,
    counting its calls in the store. *)
Definition picky_tf (d : gmap string (Tensor Z))
  : M nat (gmap string (Tensor Z)) :=
  fun calls =>
    match d !! "image" with
    | Some t => if decide (hd 0%Z (data t) = 9%Z)
                then (Raise ValueError, S calls)
                else (Ok d, S calls)
    | None => (Raise KeyError, S calls)
    end.

(** A transform that forgets the image. *)
Definition forgetful_tf (d : gmap string (Tensor Z))
  : M nat (gmap string (Tensor Z)) :=
  fun calls => (Ok (delete "image" d), S calls).

(** A transform that crops the images whose first element is 9 to
    their first entry along dimension 0. *)
Definition cropping_tf (d : gmap string (Tensor Z))
  : M nat (gmap string (Tensor Z)) :=
  fun calls =>
    match d !! "image" with
    | Some t => if decide (hd 0%Z (data t) = 9%Z)
                then (Ok {[ "image" := Torch.select_dim0 t 0 ]}, S calls)
                else (Ok d, S calls)
    | None => (Raise KeyError, S calls)
    end.

(** An encoder that returns its input as the token embeddings, with a
    number beside it, and one that always raises. *)
Definition echo_encoder (aux : nat) (_ : unit) (x : Tensor Z)
  : result (Tensor Z * nat) := Ok (x, aux).
Definition failing_encoder (_ : unit) (x : Tensor Z)
  : result (Tensor Z * nat) := Raise ValueError.

Definition config : gmap string nat := {[ "emb_size" := 2; "depth" := 4 ]}.

End MoreSamples.

Module Expect.

(** The sizes of a tensor of sizes [s] after [k] quarter turns in the
    plane [dims]: an odd number of turns exchanges the two sizes of the
    plane. *)
Definition rotated_shape (k : Z) (dims : list nat) (s : list nat) : list nat :=
  match dims with
  | [d0; d1] => if Z.even k then s else Torch.swap_dims d0 d1 s
  | _ => s
  end.

(** Where the element at [idx] of the turned tensor comes from, for a
    tensor of sizes [s] turned [k] quarter turns in the plane
    [dims = [d0; d1]], from dimension [d0] towards [d1].  Writing [i]
    and [j] for the coordinates of [idx] along [d0] and [d1], and [n0]
    and [n1] for the sizes of [s] along them: after one turn the
    element at [(i, j)] is the one that was at [(j, n1 - 1 - i)]; after
    two, at [(n0 - 1 - i, n1 - 1 - j)]; after three, at
    [(n0 - 1 - j, i)].  The other coordinates stay. *)
Definition turned_from (k : Z) (dims : list nat) (s idx : list nat)
  : list nat :=
  match dims with
  | [d0; d1] =>
      let i := nth d0 idx 0 in
      let j := nth d1 idx 0 in
      let n0 := nth d0 s 0 in
      let n1 := nth d1 s 0 in
      match (k mod 4)%Z with
      | 1%Z => <[d0 := j]> (<[d1 := n1 - 1 - i]> idx)
      | 2%Z => <[d0 := n0 - 1 - i]> (<[d1 := n1 - 1 - j]> idx)
      | 3%Z => <[d0 := n0 - 1 - j]> (<[d1 := i]> idx)
      | _ => idx
      end
  | _ => idx
  end.

(** The three spatial sizes of a volume are equal. *)
Definition cubic (s : list nat) : Prop :=
  nth 1 s 0 = nth 2 s 0 /\ nth 2 s 0 = nth 3 s 0.

Section Draws.
Context {PG TG : Type} `{PyRandom.Generator PG}.
Implicit Types w : World PG TG.

(** The two draws [random_rotation_single] makes on the store [w], and
    the store after them. *)
Definition drawn_axis w : Z := fst (PyRandom.randint 0 2 (py_gen w)).
Definition drawn_turns w : Z :=
  fst (PyRandom.randint 0 3 (snd (PyRandom.randint 0 2 (py_gen w)))).
Definition after_two_draws w : World PG TG :=
  mkWorld (snd (PyRandom.randint 0 3 (snd (PyRandom.randint 0 2 (py_gen w)))))
          (torch_gen w).

(** The draw of [random.random()] on the store [w], and the store
    after it. *)
Definition drawn_coin w : Q := fst (PyRandom.random (py_gen w)).
Definition after_coin w : World PG TG :=
  mkWorld (snd (PyRandom.random (py_gen w))) (torch_gen w).

End Draws.

End Expect.

Module MoreWorlds.

(** A store whose CPU generator replays [t] and whose other generators
    replay [other]. *)
Definition cpu_world (p t other : Scripted.script)
  : World Scripted.script Scripted.script :=
  mkWorld p (fun d => match d with cpu => t | cuda _ => other end).

(** A matrix of shape [(2, 3)] and one of shape [(3, 2)]. *)
Definition matrix23 : Tensor Z := mkTensor [2; 3] [1; 2; 3; 4; 5; 6]%Z.
Definition matrix32 : Tensor Z := mkTensor [3; 2] [1; 2; 3; 4; 5; 6]%Z.

(** Two samples of one token each; the first agrees with
    [Samples.tokens] on token 0. *)
Definition two_samples : Tensor Z := mkTensor [2; 1; 2] [1; 2; 5; 6]%Z.

(** A batch of the same shape with the same first sample and another
    second one. *)
Definition two_samples' : Tensor Z := mkTensor [2; 1; 2] [1; 2; 9; 9]%Z.

(** The sample model: the echo encoder under [Samples.head]. *)
Definition model : @Model.M3T_Edema Z unit :=
  Model.mkM3T_Edema tt Samples.head.

End MoreWorlds.

(** * Properties *)

(** ** Tensors: indices, extensionality *)

Module TorchFacts.
Import Torch.
#[local] Arguments get : simpl never.
#[local] Arguments tabulate : simpl never.
#[local] Arguments rot90 : simpl never.

Lemma ravel_lt s idx : in_range s idx -> ravel s idx < numel s.
Proof.
  unfold in_range. intros Hr. revert idx Hr.
  induction s as [|n s IH]; intros idx Hr; inversion Hr; subst; simpl.
  - lia.
  - match goal with Hx : Forall2 lt _ s |- _ => specialize (IH _ Hx) end.
    nia.
Qed.

Lemma unravel_ravel s idx : in_range s idx -> unravel s (ravel s idx) = idx.
Proof.
  unfold in_range. intros Hr. revert idx Hr.
  induction s as [|n s IH]; intros idx Hr; inversion Hr; subst; simpl.
  - reflexivity.
  - match goal with Hx : Forall2 lt _ s |- _ =>
      pose proof (ravel_lt _ _ Hx) as Hlt; specialize (IH _ Hx) end.
    assert (numel s <> 0) by lia.
    rewrite Nat.div_add_l by assumption.
    rewrite Nat.div_small by assumption.
    rewrite (Nat.add_comm (_ * _)), Nat.Div0.mod_add.
    rewrite Nat.mod_small by assumption.
    rewrite IH. f_equal. lia.
Qed.

Lemma in_range_unravel s n : n < numel s -> in_range s (unravel s n).
Proof.
  unfold in_range. revert n.
  induction s as [|d s IH]; intros n Hn; simpl in *.
  - constructor.
  - assert (numel s <> 0) by nia.
    constructor.
    + apply Nat.Div0.div_lt_upper_bound. lia.
    + apply IH. apply Nat.mod_upper_bound. assumption.
Qed.

Lemma ravel_unravel s n : n < numel s -> ravel s (unravel s n) = n.
Proof.
  revert n.
  induction s as [|d s IH]; intros n Hn; simpl in *.
  - lia.
  - assert (numel s <> 0) by nia.
    rewrite IH by (apply Nat.mod_upper_bound; assumption).
    pose proof (Nat.div_mod_eq n (numel s)). lia.
Qed.

Lemma in_range_cons n s i idx :
  in_range (n :: s) (i :: idx) <-> i < n /\ in_range s idx.
Proof.
  unfold in_range. split.
  - intros Hr. inversion Hr; subst. now split.
  - intros [? ?]. now constructor.
Qed.

Lemma in_range_cons_inv n s idx :
  in_range (n :: s) idx ->
  exists i idx', idx = i :: idx' /\ i < n /\ in_range s idx'.
Proof.
  unfold in_range. intros Hr. inversion Hr; subst. eauto.
Qed.

Lemma in_range_nil_inv idx : in_range [] idx -> idx = [].
Proof. unfold in_range. intros Hr. now inversion Hr. Qed.

(** Name the leading coordinates of an index, one per size that is
    known to be there. *)
Ltac split_index Hr :=
  repeat match type of Hr with
  | in_range (_ :: _) _ =>
      let i := fresh "i" in
      let idx' := fresh "idx" in
      let Hi := fresh "Hi" in
      apply in_range_cons_inv in Hr;
      destruct Hr as (i & idx' & -> & Hi & Hr)
  | in_range [] _ => apply in_range_nil_inv in Hr; subst
  end.

Ltac in_range_tac :=
  repeat (apply in_range_cons; split; [simpl; lia|]);
  try assumption; try constructor.

Section Elements.
Context {A : Type} `{Inhabited A}.
Implicit Types (t : Tensor A) (s idx : list nat).

Lemma wf_tabulate s (f : list nat -> A) : wf (tabulate s f).
Proof. unfold wf, tabulate. simpl. now rewrite length_map, length_seq. Qed.

Lemma shape_tabulate s (f : list nat -> A) : shape (tabulate s f) = s.
Proof. reflexivity. Qed.

Lemma get_tabulate s (f : list nat -> A) idx :
  in_range s idx -> get (tabulate s f) idx = f idx.
Proof.
  intros Hr. unfold get, tabulate. simpl.
  pose proof (ravel_lt _ _ Hr) as Hlt.
  rewrite (nth_indep _ _ (f (unravel s 0)))
    by now rewrite length_map, length_seq.
  rewrite (map_nth (fun n => f (unravel s n))).
  rewrite seq_nth by assumption. simpl.
  now rewrite unravel_ravel.
Qed.

Lemma tabulate_ext s (f g : list nat -> A) :
  (forall idx, in_range s idx -> f idx = g idx) -> tabulate s f = tabulate s g.
Proof.
  intros Hfg. unfold tabulate. f_equal.
  apply map_ext_in. intros n Hn. apply in_seq in Hn.
  apply Hfg, in_range_unravel. lia.
Qed.

Lemma tabulate_get t : wf t -> tabulate (shape t) (get t) = t.
Proof.
  destruct t as [s d]. unfold wf, tabulate, get. simpl. intros Hwf.
  f_equal.
  apply (nth_ext _ _ inhabitant inhabitant).
  - now rewrite length_map, length_seq.
  - intros n Hn. rewrite length_map, length_seq in Hn.
    rewrite (nth_indep _ _ (nth (ravel s (unravel s 0)) d inhabitant))
      by now rewrite length_map, length_seq.
    rewrite (map_nth (fun n => nth (ravel s (unravel s n)) d inhabitant)).
    rewrite seq_nth by assumption. simpl.
    now rewrite ravel_unravel.
Qed.

Lemma tensor_ext t1 t2 :
  wf t1 -> wf t2 -> shape t1 = shape t2 ->
  (forall idx, in_range (shape t1) idx -> get t1 idx = get t2 idx) ->
  t1 = t2.
Proof.
  intros W1 W2 Hs Hg.
  rewrite <- (tabulate_get t1 W1), <- (tabulate_get t2 W2), <- Hs.
  now apply tabulate_ext.
Qed.


Lemma get_index_eq t idx idx' : idx = idx' -> get t idx = get t idx'.
Proof. now intros ->. Qed.

End Elements.

(** Read through the [tabulate]s of a composite tensor at an index
    whose coordinates are named. *)
Ltac get_tab :=
  unfold transpose, flip, swap_dims, flip_index; simpl;
  repeat (rewrite get_tabulate by (simpl; in_range_tac); simpl).

(** ** torch.rot90 in the three planes of the rotation helper *)

Section Rot90.
Context {A : Type} `{Inhabited A}.
Implicit Types (t : Tensor A) (s idx : list nat).

Lemma rot90_defined t (k : Z) dims :
  4 <= rank t -> In dims Spec.planes -> exists out, rot90 t k dims = Ok out.
Proof.
  intros Hrank Hd. simpl in Hd.
  destruct Hd as [<-|[<-|[<-|[]]]]; unfold rot90;
    rewrite !decide_True by lia; eauto.
Qed.

(** Turning [k] times and then [4 - k] times gives the tensor back. *)
Lemma rot90_inverse t (k : Z) dims :
  wf t -> 4 <= rank t -> In dims Spec.planes -> (0 <= k <= 3)%Z ->
  exists out, rot90 t k dims = Ok out /\ rot90 out (4 - k) dims = Ok t.
Proof.
  intros Hwf Hrank Hd Hk.
  destruct t as [s d]. unfold rank in Hrank. simpl in Hrank.
  destruct s as [|n0 [|n1 [|n2 [|n3 rest]]]]; simpl in Hrank; try lia.
  clear Hrank.
  assert (Hk' : k = 0%Z \/ k = 1%Z \/ k = 2%Z \/ k = 3%Z) by lia.
  simpl in Hd.
  destruct Hd as [<-|[<-|[<-|[]]]];
    destruct Hk' as [->|[->|[->| ->]]];
    unfold rot90;
    (rewrite !decide_True by (unfold rank; simpl; lia));
    eexists; (split; [reflexivity|]);
    (rewrite !decide_True by (unfold rank; simpl; lia));
    simpl; f_equal;
    try reflexivity;
    (apply tensor_ext;
     [ apply wf_tabulate | assumption | reflexivity | ]);
    unfold transpose, flip, swap_dims, flip_index; simpl;
    intros idx Hr; split_index Hr;
    get_tab; apply get_index_eq; repeat (f_equal; try lia).
Qed.

(** [rot90] by [k] is [k] quarter turns, one after the other. *)
Lemma rot90_quarter_turns t (k : Z) dims :
  4 <= rank t -> In dims Spec.planes -> (0 <= k <= 3)%Z ->
  rot90 t k dims = Spec.quarter_turns (Z.to_nat k) dims t.
Proof.
  intros Hrank Hd Hk.
  destruct t as [s d]. unfold rank in Hrank. simpl in Hrank.
  destruct s as [|n0 [|n1 [|n2 [|n3 rest]]]]; simpl in Hrank; try lia.
  clear Hrank.
  assert (Hk' : k = 0%Z \/ k = 1%Z \/ k = 2%Z \/ k = 3%Z) by lia.
  simpl in Hd.
  destruct Hd as [<-|[<-|[<-|[]]]];
    destruct Hk' as [->|[->|[->| ->]]];
    unfold Spec.quarter_turns; simpl Z.to_nat; simpl Nat.iter;
    unfold rot90;
    repeat (rewrite decide_True by (unfold rank; simpl; lia));
    simpl; f_equal; try reflexivity;
    unfold transpose, flip, swap_dims, flip_index; simpl;
    apply tabulate_ext;
    intros idx Hr; split_index Hr;
    get_tab; apply get_index_eq; repeat (f_equal; try lia).
Qed.

(** Where [rot90] puts every element: the sizes of the result, and for
    each of its indices the index of the input it is read from. *)
Lemma rot90_turned t (k : Z) dims out :
  4 <= rank t -> In dims Spec.planes -> (0 <= k <= 3)%Z ->
  rot90 t k dims = Ok out ->
  shape out = Expect.rotated_shape k dims (shape t) /\
  forall idx, in_range (shape out) idx ->
              get out idx = get t (Expect.turned_from k dims (shape t) idx).
Proof.
  intros Hrank Hd Hk.
  destruct t as [s d]. unfold rank in Hrank. simpl in Hrank.
  destruct s as [|n0 [|n1 [|n2 [|n3 rest]]]]; simpl in Hrank; try lia.
  clear Hrank.
  assert (Hk' : k = 0%Z \/ k = 1%Z \/ k = 2%Z \/ k = 3%Z) by lia.
  simpl in Hd.
  destruct Hd as [<-|[<-|[<-|[]]]];
    destruct Hk' as [->|[->|[->| ->]]];
    unfold rot90;
    (rewrite !decide_True by (unfold rank; simpl; lia));
    intros Hout; injection Hout as <-;
    (split; [reflexivity|]);
    unfold transpose, flip, swap_dims, flip_index, Expect.turned_from; simpl;
    intros idx Hr; split_index Hr;
    get_tab; apply get_index_eq; repeat (f_equal; try lia).
Qed.

End Rot90.
End TorchFacts.

(** ** The scripted generator obeys the laws of both interfaces *)

Module ScriptedFacts.
Import Scripted.

Lemma unit_interval_grid (h : Z) (n : positive) :
  unit_interval (Qmake (h mod Z.pos n) n).
Proof.
  pose proof (Z.mod_pos_bound h (Z.pos n) ltac:(lia)) as Hb.
  unfold unit_interval, Qle, Qlt. simpl. lia.
Qed.

Lemma pick_perm (n : nat) : forall (pool : list nat) (g : script),
  length pool = n -> Permutation (fst (pick n pool g)) pool.
Proof.
  induction n as [|n IH]; intros pool g Hlen.
  - destruct pool; [constructor | discriminate].
  - simpl. destruct (next g) as [h t].
    assert (Hi : Z.to_nat (h mod Z.of_nat (length pool)) < length pool).
    { pose proof (Z.mod_pos_bound h (Z.of_nat (length pool)) ltac:(lia)).
      lia. }
    destruct (lookup_lt_is_Some_2 pool _ Hi) as [x Hx]. rewrite Hx.
    specialize (IH (delete (Z.to_nat (h mod Z.of_nat (length pool))) pool) t).
    destruct (pick n _ t) as [r g']. simpl in *.
    rewrite (delete_Permutation pool _ x Hx).
    constructor. apply IH.
    rewrite length_delete by eauto. lia.
Qed.

Lemma rand_fst_length (n : nat) : forall g : script, length (fst (rand n g)) = n.
Proof.
  induction n as [|n IH]; intros g; simpl; [reflexivity|].
  destruct (next g) as [h t]. specialize (IH t).
  destruct (rand n t) as [r g']. simpl in *. now rewrite IH.
Qed.

Lemma rand_fst_range (n : nat) : forall g : script,
  Forall unit_interval (fst (rand n g)).
Proof.
  induction n as [|n IH]; intros g; simpl; [constructor|].
  destruct (next g) as [h t]. specialize (IH t).
  destruct (rand n t) as [r g']. simpl in *.
  constructor; [apply unit_interval_grid | assumption].
Qed.

Lemma py_lawful : PyRandom.Lawful script.
Proof.
  split.
  - intros a b g Hab. simpl. unfold randint.
    destruct (next g) as [h t]. simpl.
    pose proof (Z.mod_pos_bound h (b - a + 1) ltac:(lia)). lia.
  - intros g. simpl. unfold random.
    destruct (next g) as [h t]. simpl. apply unit_interval_grid.
Qed.
#[global] Existing Instance py_lawful.

Lemma torch_lawful : TorchRandom.Lawful script.
Proof.
  split.
  - intros n g. simpl. unfold randperm. apply pick_perm, length_seq.
  - intros n g. apply rand_fst_length.
  - intros n g. apply rand_fst_range.
Qed.
#[global] Existing Instance torch_lawful.

(** Every (axis, turns) pair is drawn from some script. *)
Lemma every_pair_drawn (axis k : Z) :
  (0 <= axis <= 2)%Z -> (0 <= k <= 3)%Z ->
  fst (randint 0 2 [axis; k]) = axis /\
  fst (randint 0 3 (snd (randint 0 2 [axis; k]))) = k.
Proof.
  intros Ha Hk. unfold randint. simpl.
  rewrite !Z.mod_small by lia. split; reflexivity.
Qed.

(** Of the [2^53] equally spaced values [random] can return, those
    below one half are exactly the first [2^52]. *)
Lemma random_below_half (h : Z) :
  Qltb (fst (random [h])) 0.5 = true <->
  (h mod 9007199254740992 < 4503599627370496)%Z.
Proof.
  unfold random, Qltb. simpl.
  destruct (Qlt_le_dec _ _) as [Hlt|Hle];
    unfold Qlt, Qle in *; simpl in *; split; intros;
    try lia; try discriminate; try reflexivity.
Qed.

End ScriptedFacts.

(** ** The self-supervised label helpers *)

Module TransformsFacts.
Import Torch TorchFacts Transforms.
#[local] Arguments rot90 : simpl never.

Section Rotation.
Context {A : Type} `{Inhabited A}.
Context {PG TG : Type}.
Context `{PyRandom.Generator PG} `{TorchRandom.Generator TG}.
Implicit Types (vol : Tensor A) (w : World PG TG).

Lemma rotation_plane_planes axis :
  (0 <= axis <= 2)%Z -> In (Spec.rotation_plane axis) Spec.planes.
Proof.
  intros Ha. unfold Spec.rotation_plane, Spec.planes.
  repeat case_decide; simpl; auto.
Qed.

Lemma dims_map_plane axis :
  (0 <= axis <= 2)%Z ->
  exists dims, dims_map !! axis = Some dims /\
               [fst dims; snd dims] = Spec.rotation_plane axis.
Proof.
  intros Ha.
  assert (Hc : axis = 0%Z \/ axis = 1%Z \/ axis = 2%Z) by lia.
  destruct Hc as [->|[->| ->]]; eexists; split;
    try (vm_compute; reflexivity); reflexivity.
Qed.

(** The helper run on a store whose next two draws are [axis] and [k]. *)
Lemma random_rotation_single_draws vol w axis k :
  4 <= rank vol -> (0 <= axis <= 2)%Z ->
  fst (PyRandom.randint 0 2 (py_gen w)) = axis ->
  fst (PyRandom.randint 0 3 (snd (PyRandom.randint 0 2 (py_gen w)))) = k ->
  exists out,
    rot90 vol k (Spec.rotation_plane axis) = Ok out /\
    random_rotation_single vol w =
      (Ok (out, (axis * 4 + k)%Z),
       mkWorld (snd (PyRandom.randint 0 3
                       (snd (PyRandom.randint 0 2 (py_gen w)))))
               (torch_gen w)).
Proof.
  intros Hrank Ha Hax Hk.
  destruct (dims_map_plane axis Ha) as (dims & Hd & Hp).
  destruct (rot90_defined vol k _ Hrank (rotation_plane_planes axis Ha))
    as (out & Hout). exists out. split; [assumption|].
  unfold random_rotation_single, bind, py_randint, lift, ret, getitem.
  simpl. rewrite Hax, Hd, Hk, Hp, Hout. reflexivity.
Qed.

End Rotation.

Section RotationClaims.
Context {A : Type} `{Inhabited A}.
Context {PG TG : Type}.
Context `{PyRandom.Generator PG} `{!PyRandom.Lawful PG}.
Context `{TorchRandom.Generator TG}.
Implicit Types (vol : Tensor A) (w : World PG TG).

(** C1: [random_rotation_single] draws an axis in {0,1,2} and a count
    [k] in {0,1,2,3}, turns the volume [k] quarter turns in the plane
    the table gives for the axis, and returns it with the label
    [axis*4 + k].  The turn is stated element by element: the output
    has the sizes of the input, the two of the plane exchanged when
    [k] is odd, and its element at every index is the element of the
    input at the index a turn by [k] quarter turns brings there
    ([Expect.turned_from]).  Over the twelve pairs the labels are
    exactly 0, 1, ..., 11, and each of them is returned on some
    store. *)
Theorem random_rotation_single_spec vol w :
  4 <= rank vol ->
  exists (axis k : Z) (out : Tensor A) (w' : World PG TG),
    axis = fst (PyRandom.randint 0 2 (py_gen w)) /\
    k = fst (PyRandom.randint 0 3 (snd (PyRandom.randint 0 2 (py_gen w)))) /\
    (0 <= axis <= 2)%Z /\ (0 <= k <= 3)%Z /\
    rot90 vol k (Spec.rotation_plane axis) = Ok out /\
    Spec.quarter_turns (Z.to_nat k) (Spec.rotation_plane axis) vol = Ok out /\
    random_rotation_single vol w = (Ok (out, (axis * 4 + k)%Z), w') /\
    torch_gen w' = torch_gen w /\
    map Spec.rotation_label Spec.rotation_pairs = seqZ 0 12 /\
    shape out
      = Expect.rotated_shape k (Spec.rotation_plane axis) (shape vol) /\
    (forall idx, in_range (shape out) idx ->
       get out idx
       = get vol (Expect.turned_from k (Spec.rotation_plane axis)
                    (shape vol) idx)) /\
    (0 <= axis * 4 + k <= 11)%Z /\
    (forall label : Z, (0 <= label <= 11)%Z ->
       exists (ws : World Scripted.script Scripted.script) (o : Tensor A),
         fst (random_rotation_single vol ws) = Ok (o, label)).
Proof.
  intros Hrank.
  pose proof (PyRandom.randint_range 0 2 (py_gen w) ltac:(lia)) as Ha.
  pose proof (PyRandom.randint_range 0 3
                (snd (PyRandom.randint 0 2 (py_gen w))) ltac:(lia)) as Hk.
  destruct (random_rotation_single_draws vol w _ _ Hrank Ha eq_refl eq_refl)
    as (out & Hout & Hrun).
  destruct (rot90_turned vol _ _ out Hrank
              (rotation_plane_planes _ Ha) Hk Hout) as (Hshape & Helems).
  eexists _, _, out, _.
  split; [reflexivity|]. split; [reflexivity|].
  split; [exact Ha|]. split; [exact Hk|].
  split; [exact Hout|].
  split.
  { rewrite <- rot90_quarter_turns; auto using rotation_plane_planes. }
  split; [exact Hrun|].
  split; [reflexivity|]. split; [reflexivity|].
  split; [exact Hshape|]. split; [exact Helems|].
  split; [lia|].
  intros label Hl.
  assert (Hq : (0 <= label / 4 <= 2)%Z).
  { pose proof (Z.div_pos label 4 ltac:(lia) ltac:(lia)).
    pose proof (Z.div_lt_upper_bound label 4 3 ltac:(lia) ltac:(lia)). lia. }
  assert (Hm : (0 <= label mod 4 <= 3)%Z)
    by (pose proof (Z.mod_pos_bound label 4 ltac:(lia)); lia).
  destruct (ScriptedFacts.every_pair_drawn _ _ Hq Hm) as (Hd1 & Hd2).
  pose proof (random_rotation_single_draws (PG:=Scripted.script)
                (TG:=Scripted.script) vol
                (Scripted.world [(label / 4)%Z; (label mod 4)%Z] [])
                (label / 4)%Z (label mod 4)%Z Hrank Hq) as Hdraw.
  destruct (Hdraw Hd1 Hd2) as (o & _ & Hrun').
  eexists _, o. rewrite Hrun'. simpl. do 2 f_equal.
  pose proof (Z.div_mod label 4 ltac:(lia)). lia.
Qed.

(** C2: for every pair of draws (axis, k), turning the helper's output
    a further [4 - k] quarter turns in the plane of [axis] gives the
    input volume back. *)
Theorem random_rotation_single_inverse vol w (axis k : Z) :
  wf vol -> 4 <= rank vol ->
  (0 <= axis <= 2)%Z -> (0 <= k <= 3)%Z ->
  fst (PyRandom.randint 0 2 (py_gen w)) = axis ->
  fst (PyRandom.randint 0 3 (snd (PyRandom.randint 0 2 (py_gen w)))) = k ->
  exists (out : Tensor A) (w' : World PG TG),
    random_rotation_single vol w = (Ok (out, (axis * 4 + k)%Z), w') /\
    rot90 out (4 - k) (Spec.rotation_plane axis) = Ok vol.
Proof.
  intros Hwf Hrank Ha Hk Hax Hkk.
  destruct (random_rotation_single_draws vol w axis k Hrank Ha Hax Hkk)
    as (out & Hout & Hrun).
  destruct (rot90_inverse vol k _ Hwf Hrank (rotation_plane_planes axis Ha) Hk)
    as (out' & Hout' & Hinv).
  rewrite Hout in Hout'. injection Hout' as <-.
  eauto.
Qed.

End RotationClaims.

Lemma map_nth_seq {X Y : Type} (f : X -> Y) (l : list X) (d : X) :
  map (fun j => f (nth j l d)) (seq 0 (length l)) = map f l.
Proof.
  induction l as [|x l IH]; [reflexivity|].
  simpl. f_equal. rewrite <- seq_shift, map_map. exact IH.
Qed.

Lemma Forall_lt_perm_seq (perm : list nat) (n : nat) :
  Permutation perm (seq 0 n) -> Forall (fun i => i < n) perm.
Proof.
  intros Hp. apply List.Forall_forall. intros i Hi.
  apply (Permutation_in _ Hp), in_seq in Hi. lia.
Qed.

Section Jigsaw.
Context {A : Type} `{Inhabited A}.
Context {PG TG : Type}.
Context `{PyRandom.Generator PG} `{TorchRandom.Generator TG}.
Implicit Types (vol : Tensor A) (w : World PG TG).

(** [vol[:, ix]] holds the slices of [vol] that [ix] names, in the
    order of [ix]. *)
Lemma index_dim1_slices vol (n0 n1 : nat) (rest ix : list nat) :
  shape vol = n0 :: n1 :: rest -> Forall (fun i => i < n1) ix ->
  exists out,
    index_dim1 vol ix = Ok out /\
    shape out = n0 :: length ix :: rest /\
    wf out /\
    slices_dim1 out = map (slice_dim1 vol) ix.
Proof.
  intros Hs Hix. unfold index_dim1. rewrite Hs, decide_True by assumption.
  eexists. split; [reflexivity|]. split; [reflexivity|].
  split; [apply wf_tabulate|].
  unfold slices_dim1. simpl.
  rewrite <- (map_nth_seq (slice_dim1 vol) ix 0).
  apply map_ext_in. intros j Hj. apply in_seq in Hj.
  unfold slice_dim1. rewrite Hs. simpl.
  apply tabulate_ext. intros idx Hr. split_index Hr.
  now rewrite get_tabulate by in_range_tac.
Qed.

(** Indexing with [0, 1, ..., n1 - 1] changes nothing. *)
Lemma index_dim1_identity vol (n0 n1 : nat) (rest : list nat) :
  wf vol -> shape vol = n0 :: n1 :: rest ->
  index_dim1 vol (seq 0 n1) = Ok vol.
Proof.
  intros Hwf Hs. unfold index_dim1.
  rewrite Hs, decide_True
    by (apply List.Forall_forall; intros i Hi; apply in_seq in Hi; lia).
  f_equal. apply tensor_ext; [apply wf_tabulate | assumption | |].
  - simpl. now rewrite length_seq.
  - simpl. rewrite length_seq. intros idx Hr. split_index Hr.
    rewrite get_tabulate by in_range_tac.
    simpl. now rewrite seq_nth by assumption.
Qed.

(** The helper run on a store whose next draw of [random] is below one
    half. *)
Lemma random_jigsaw_single_permuted vol w (n0 n1 : nat) (rest : list nat) :
  shape vol = n0 :: n1 :: rest ->
  Qltb (fst (PyRandom.random (py_gen w))) 0.5 = true ->
  random_jigsaw_single vol w =
    (match index_dim1 vol (fst (TorchRandom.randperm n1 (torch_gen w cpu))) with
     | Ok out => Ok (out, 1%Z)
     | Raise e => Raise e
     end,
     set_torch_gen (mkWorld (snd (PyRandom.random (py_gen w))) (torch_gen w))
       cpu (snd (TorchRandom.randperm n1 (torch_gen w cpu)))).
Proof.
  intros Hs Hu.
  unfold random_jigsaw_single, bind, py_random, lift, ret, size,
    torch_randperm.
  simpl. rewrite Hu, Hs. simpl.
  destruct (index_dim1 _ _); reflexivity.
Qed.

(** The helper run on a store whose next draw of [random] is one half
    or more. *)
Lemma random_jigsaw_single_unchanged vol w :
  Qltb (fst (PyRandom.random (py_gen w))) 0.5 = false ->
  random_jigsaw_single vol w =
    (Ok (vol, 0%Z), mkWorld (snd (PyRandom.random (py_gen w))) (torch_gen w)).
Proof.
  intros Hu.
  unfold random_jigsaw_single, bind, py_random, lift, ret.
  simpl. now rewrite Hu.
Qed.

End Jigsaw.

Lemma Qltb_lt (x y : Q) : Qltb x y = true <-> (x < y)%Q.
Proof.
  unfold Qltb. destruct (Qlt_le_dec x y) as [Hlt|Hle].
  - split; auto.
  - split; [discriminate|]. intros Hlt. exfalso.
    exact (Qlt_not_le _ _ Hlt Hle).
Qed.

Lemma Qltb_ge (x y : Q) : Qltb x y = false <-> (y <= x)%Q.
Proof.
  unfold Qltb. destruct (Qlt_le_dec x y) as [Hlt|Hle].
  - split; [discriminate|]. intros Hle. exfalso.
    exact (Qlt_not_le _ _ Hlt Hle).
  - split; auto.
Qed.

Section JigsawClaims.
Context {A : Type} `{Inhabited A}.
Context {PG TG : Type}.
Context `{PyRandom.Generator PG} `{!PyRandom.Lawful PG}.
Context `{TorchRandom.Generator TG} `{!TorchRandom.Lawful TG}.
Implicit Types (vol : Tensor A) (w : World PG TG).

(** C3: [random_jigsaw_single] draws [u] in [[0, 1)]; when [u < 0.5] it
    reorders the depth slices by the permutation [torch.randperm]
    draws and returns label 1, otherwise it returns the volume as it
    is with label 0.  With label 0 the output is the input; with label
    1 the output has the same depth slices as the input, as a
    multiset. *)
Theorem random_jigsaw_single_spec vol w :
  2 <= rank vol ->
  let u := fst (PyRandom.random (py_gen w)) in
  let n1 := nth 1 (shape vol) 0 in
  let perm := fst (TorchRandom.randperm n1 (torch_gen w cpu)) in
  exists (out : Tensor A) (label : Z) (w' : World PG TG),
    random_jigsaw_single vol w = (Ok (out, label), w') /\
    unit_interval u /\
    ((u < 0.5)%Q -> label = 1%Z) /\
    ((0.5 <= u)%Q -> label = 0%Z) /\
    (label = 0%Z -> out = vol) /\
    (label = 1%Z ->
       Permutation perm (seq 0 n1) /\
       index_dim1 vol perm = Ok out /\
       shape out = shape vol /\
       slices_dim1 out = map (slice_dim1 vol) perm /\
       Permutation (slices_dim1 out) (slices_dim1 vol)).
Proof.
  intros Hrank u n1 perm.
  destruct vol as [s d]. unfold rank in Hrank. simpl in Hrank.
  destruct s as [|n0 [|n1' rest]]; simpl in Hrank; try lia.
  simpl in n1. subst n1.
  set (vol := {| shape := n0 :: n1' :: rest; data := d |}) in *.
  pose proof (PyRandom.random_range (py_gen w)) as Hu. fold u in Hu.
  pose proof (TorchRandom.randperm_perm n1' (torch_gen w cpu)) as Hperm.
  fold perm in Hperm.
  destruct (Qltb u 0.5) eqn:Hlt.
  - destruct (index_dim1_slices vol n0 n1' rest perm eq_refl
                (Forall_lt_perm_seq _ _ Hperm))
      as (out & Hix & Hshape & _ & Hsl).
    exists out, 1%Z. eexists.
    split.
    { rewrite (random_jigsaw_single_permuted vol w n0 n1' rest eq_refl Hlt).
      fold perm. rewrite Hix. reflexivity. }
    split; [exact Hu|].
    split; [reflexivity|].
    split.
    { intros Hge. apply Qltb_lt in Hlt. exfalso.
      exact (Qlt_not_le _ _ Hlt Hge). }
    split; [discriminate|].
    intros _. split; [exact Hperm|]. split; [exact Hix|].
    split.
    { rewrite Hshape. simpl.
      now rewrite (Permutation_length Hperm), length_seq. }
    split; [exact Hsl|].
    rewrite Hsl. unfold slices_dim1. simpl.
    apply Permutation_map. exact Hperm.
  - exists vol, 0%Z. eexists.
    split; [apply random_jigsaw_single_unchanged; exact Hlt|].
    split; [exact Hu|].
    split.
    { intros Hlt'. apply Qltb_lt in Hlt'. fold u in Hlt'. congruence. }
    split; [reflexivity|].
    split; [reflexivity|discriminate].
Qed.

End JigsawClaims.

Section JigsawIdentity.
Context {A : Type} `{Inhabited A}.
Context {PG TG : Type}.
Context `{PyRandom.Generator PG} `{TorchRandom.Generator TG}.
Implicit Types (vol : Tensor A) (w : World PG TG).

(** C9: label 1 does not tell that the volume changed.  On a store
    whose draw is below one half and whose permutation is the
    identity, the helper returns the input volume with label 1; on a
    store whose draw is one half or more it returns the same volume
    with label 0.  The two outputs differ in the label only. *)
Theorem jigsaw_label_not_recoverable vol (w1 w2 : World PG TG) :
  wf vol -> 2 <= rank vol ->
  (fst (PyRandom.random (py_gen w1)) < 0.5)%Q ->
  fst (TorchRandom.randperm (nth 1 (shape vol) 0) (torch_gen w1 cpu))
    = seq 0 (nth 1 (shape vol) 0) ->
  (0.5 <= fst (PyRandom.random (py_gen w2)))%Q ->
  exists w1' w2' : World PG TG,
    random_jigsaw_single vol w1 = (Ok (vol, 1%Z), w1') /\
    random_jigsaw_single vol w2 = (Ok (vol, 0%Z), w2').
Proof.
  intros Hwf Hrank Hu1 Hperm Hu2.
  remember (shape vol) as s eqn:Hs.
  unfold rank in Hrank. rewrite <- Hs in Hrank.
  destruct s as [|n0 [|n1 rest]]; simpl in Hrank; try lia.
  simpl in Hperm. symmetry in Hs.
  apply Qltb_lt in Hu1. apply Qltb_ge in Hu2.
  eexists _, _. split.
  - rewrite (random_jigsaw_single_permuted vol w1 n0 n1 rest Hs Hu1).
    rewrite Hperm, (index_dim1_identity vol n0 n1 rest Hwf Hs).
    reflexivity.
  - apply random_jigsaw_single_unchanged. exact Hu2.
Qed.

(** C4, as the code has it: the result of [random_rotation_single] is
    fixed by the state of Python's generator alone; the result of
    [random_jigsaw_single] is fixed by that state together with the
    state of torch's CPU generator, from which the permutation is
    drawn. *)
Theorem helpers_determined_by_generators :
  Spec.determined_by_python_generator
    (random_rotation_single (A:=A) (PG:=PG) (TG:=TG)) /\
  Spec.determined_by_both_generators
    (random_jigsaw_single (A:=A) (PG:=PG) (TG:=TG)).
Proof.
  split.
  - intros vol w1 w2 Hpy.
    unfold random_rotation_single, bind, py_randint, lift, ret. simpl.
    rewrite Hpy.
    destruct (getitem _ _); [|reflexivity].
    destruct (rot90 _ _ _); reflexivity.
  - intros vol w1 w2 Hpy Hcpu.
    unfold random_jigsaw_single, bind, py_random, lift, ret,
      torch_randperm. simpl.
    rewrite Hpy.
    destruct (Qltb _ _); [|reflexivity].
    destruct (size vol 1); [|reflexivity]. simpl.
    rewrite Hcpu.
    destruct (index_dim1 _ _); reflexivity.
Qed.

End JigsawIdentity.

(** C4, as the specification words it, fails: after seeding Python's generator
    alone, two runs of [random_jigsaw_single] on one volume can return
    different volumes, because the permutation comes from torch's
    generator. *)
Lemma jigsaw_not_determined_by_python_generator :
  ~ Spec.determined_by_python_generator
      (random_jigsaw_single (A:=Z) (PG:=Scripted.script) (TG:=Scripted.script)).
Proof.
  intros Hdet.
  specialize (Hdet Samples.vol (Scripted.world [0%Z] [0%Z; 0%Z])
                (Scripted.world [0%Z] [1%Z; 0%Z]) eq_refl).
  vm_compute in Hdet. discriminate Hdet.
Qed.

End TransformsFacts.

(** ** Batch augmentation *)

Module BatchFacts.
Import Torch TorchFacts Transforms.
#[local] Arguments get : simpl never.
#[local] Arguments tabulate : simpl never.

Section Batch.
Context {A : Type} `{Inhabited A}.
Context {St : Type}.
Implicit Types (imgs t : Tensor A) (st : St).
Implicit Types (tf : gmap string (Tensor A) -> M St (gmap string (Tensor A))).

Lemma for_each_cons {X Y : Type} (f : X -> M St Y) (x : X) (xs : list X) st :
  for_each f (x :: xs) st =
    match f x st with
    | (Ok y, st1) =>
        match for_each f xs st1 with
        | (Ok ys, st2) => (Ok (y :: ys), st2)
        | (Raise e, st2) => (Raise e, st2)
        end
    | (Raise e, st1) => (Raise e, st1)
    end.
Proof.
  simpl. unfold bind, ret. destruct (f x st) as [[y|e] st1]; [|reflexivity].
  destruct (for_each f xs st1) as [[ys|e] st2]; reflexivity.
Qed.

Lemma on_sample_run tf (x : Tensor A) st :
  Spec.on_sample tf x st =
    match tf {[ "image" := x ]} st with
    | (Ok d, st1) => (getitem d "image", st1)
    | (Raise e, st1) => (Raise e, st1)
    end.
Proof.
  unfold Spec.on_sample, bind, lift.
  destruct (tf _ st) as [[d|e] st1]; reflexivity.
Qed.

Lemma for_each_applied tf xs st ys st' :
  for_each (Spec.on_sample tf) xs st = (Ok ys, st') <->
  Spec.applied_in_order tf xs st ys st'.
Proof.
  split.
  - revert st ys st'. induction xs as [|x xs IH]; intros st ys st' Hrun.
    + simpl in Hrun. unfold ret in Hrun. inversion Hrun; subst. constructor.
    + rewrite for_each_cons, on_sample_run in Hrun. unfold getitem in Hrun.
      destruct (tf _ st) as [[d|e] st1] eqn:Htf; [|discriminate].
      destruct (d !! "image") as [y|] eqn:Hd; [|discriminate].
      destruct (for_each (Spec.on_sample tf) xs st1) as [[zs|e] st2] eqn:Hrest;
        [|discriminate].
      inversion Hrun; subst.
      econstructor; eauto.
  - induction 1 as [st|x xs st st1 st2 d y ys Htf Hd _ IH]; [reflexivity|].
    rewrite for_each_cons, on_sample_run, Htf. unfold getitem.
    now rewrite Hd, IH.
Qed.

Lemma applied_length tf xs st ys st' :
  Spec.applied_in_order tf xs st ys st' -> length ys = length xs.
Proof. induction 1; simpl; congruence. Qed.

Lemma identity_applied tf :
  Spec.acts_as_identity tf ->
  forall xs st, exists st', Spec.applied_in_order tf xs st xs st'.
Proof.
  intros Hid. induction xs as [|x xs IH]; intros st.
  - eexists. constructor.
  - destruct (Hid x st) as (d & st1 & Htf & Hd).
    destruct (IH st1) as (st2 & Hrest).
    eexists. econstructor; eauto.
Qed.

Lemma iterate_samples imgs (n : nat) (s : list nat) :
  shape imgs = n :: s ->
  iterate imgs = Ok (map (select_dim0 imgs) (seq 0 n)).
Proof. intros Hs. unfold iterate. now rewrite Hs. Qed.

(** Stacking tensors of one shape: the [i]-th entry of the result is
    the [i]-th tensor. *)
Lemma stack_get (ts : list (Tensor A)) (s : list nat) :
  ts <> [] -> Forall (fun t => shape t = s) ts ->
  exists out,
    stack ts = Ok out /\
    shape out = length ts :: s /\
    wf out /\
    forall (i : nat) (t : Tensor A) (idx : list nat),
      ts !! i = Some t -> in_range s idx -> get out (i :: idx) = get t idx.
Proof.
  intros Hne Hall. destruct ts as [|t0 ts]; [congruence|].
  assert (Hs0 : shape t0 = s) by now inversion Hall.
  unfold stack. rewrite decide_True
    by (rewrite Hs0; exact Hall).
  eexists. split; [reflexivity|].
  split; [simpl; now rewrite Hs0|].
  split; [apply wf_tabulate|].
  intros i t idx Hi Hr.
  rewrite get_tabulate.
  - now rewrite (nth_lookup_Some _ _ _ _ Hi).
  - rewrite Hs0. apply in_range_cons. split; [|assumption].
    apply lookup_lt_Some in Hi. exact Hi.
Qed.

(** Stacking the samples of a batch builds the batch again. *)
Lemma stack_samples imgs (n : nat) (s : list nat) :
  wf imgs -> shape imgs = n :: s -> 1 <= n ->
  stack (map (select_dim0 imgs) (seq 0 n)) = Ok imgs.
Proof.
  intros Hwf Hs Hn.
  destruct (stack_get (map (select_dim0 imgs) (seq 0 n)) s)
    as (out & Hst & Hshape & Hwfo & Hget).
  - destruct n; [lia|]. discriminate.
  - apply List.Forall_forall. intros t Ht. apply in_map_iff in Ht.
    destruct Ht as (i & <- & _). unfold select_dim0. simpl. now rewrite Hs.
  - rewrite Hst. f_equal.
    rewrite length_map, length_seq in Hshape.
    apply tensor_ext; [assumption | assumption | congruence |].
    rewrite Hshape. intros idx Hr. split_index Hr.
    rewrite (Hget i (select_dim0 imgs i) idx0); [| |assumption].
    + unfold select_dim0. rewrite Hs. simpl.
      now rewrite get_tabulate by assumption.
    + rewrite list_lookup_fmap, lookup_seq_lt by assumption. reflexivity.
Qed.

Lemma augment_batch_unfold imgs tf :
  augment_batch imgs tf =
    (samples <- lift (iterate imgs) ;;
     outs <- for_each (Spec.on_sample tf) samples ;;
     lift (stack outs))%py.
Proof. reflexivity. Qed.

(** An empty batch cannot be stacked: the call raises. *)
Lemma augment_batch_empty imgs tf st (s : list nat) :
  shape imgs = 0 :: s ->
  augment_batch imgs tf st = (Raise RuntimeError, st).
Proof.
  intros Hs. rewrite augment_batch_unfold.
  unfold bind, lift. now rewrite (iterate_samples imgs 0 s Hs).
Qed.

(** C7, as the code has it: for every batch of [n >= 1] samples,
    [augment_batch] applies the transform to the samples one after the
    other, each wrapped under the key "image", and stacks the images
    it returns in the input order; with a transform that acts as the
    identity on every sample the result is the input batch.  A call
    that returns has applied the transform in this way. *)
Theorem augment_batch_spec imgs tf st (n : nat) (s : list nat) :
  shape imgs = n :: s -> 1 <= n ->
  let samples := map (select_dim0 imgs) (seq 0 n) in
  (forall (outs : list (Tensor A)) (st' : St) (s' : list nat),
      Spec.applied_in_order tf samples st outs st' ->
      Forall (fun o => shape o = s') outs ->
      exists out,
        augment_batch imgs tf st = (Ok out, st') /\
        shape out = n :: s' /\
        forall (i : nat) (o : Tensor A) (idx : list nat),
          outs !! i = Some o -> in_range s' idx ->
          get out (i :: idx) = get o idx) /\
  (wf imgs -> Spec.acts_as_identity tf ->
   exists st', augment_batch imgs tf st = (Ok imgs, st')) /\
  (forall (out : Tensor A) (st' : St),
      augment_batch imgs tf st = (Ok out, st') ->
      exists outs, Spec.applied_in_order tf samples st outs st' /\
                   stack outs = Ok out).
Proof.
  intros Hs Hn samples.
  rewrite augment_batch_unfold. unfold bind at 1. unfold lift at 1.
  rewrite (iterate_samples imgs n s Hs). fold samples.
  assert (Hlen : length samples = n)
    by (unfold samples; now rewrite length_map, length_seq).
  split; [|split].
  - intros outs st' s' Happ Hall.
    pose proof (applied_length _ _ _ _ _ Happ) as Hlo.
    apply for_each_applied in Happ.
    destruct (stack_get outs s') as (out & Hst & Hshape & _ & Hget).
    + destruct outs; [simpl in Hlo; lia | discriminate].
    + exact Hall.
    + exists out. unfold bind, lift. rewrite Happ, Hst.
      split; [reflexivity|]. split; [congruence|]. exact Hget.
  - intros Hwf Hid.
    destruct (identity_applied tf Hid samples st) as (st' & Happ).
    apply for_each_applied in Happ.
    exists st'. unfold bind, lift. rewrite Happ.
    unfold samples. rewrite (stack_samples imgs n s Hwf Hs Hn). reflexivity.
  - intros out st' Hrun. unfold bind, lift in Hrun.
    destruct (for_each (Spec.on_sample tf) samples st) as [[outs|e] st1] eqn:Hfe;
      [|discriminate].
    apply for_each_applied in Hfe.
    exists outs. destruct (stack outs) as [o|e] eqn:Hst; [|discriminate].
    assert (o = out /\ st1 = st') as [-> ->] by (split; congruence).
    split; [assumption|reflexivity].
Qed.

End Batch.

(** C7, as the specification words it, fails on a batch of no samples: with the
    identity transform the call raises instead of returning the input
    batch. *)
Lemma augment_batch_empty_batch_raises :
  wf Samples.empty_batch /\
  Spec.acts_as_identity Samples.identity_tf /\
  augment_batch Samples.empty_batch Samples.identity_tf tt
    = (Raise RuntimeError, tt) /\
  fst (augment_batch Samples.empty_batch Samples.identity_tf tt)
    <> Ok Samples.empty_batch.
Proof.
  split; [reflexivity|]. split.
  - intros x st. exists {[ "image" := x ]}, st. split; [reflexivity|].
    apply lookup_singleton_eq.
  - split; [reflexivity|]. vm_compute. discriminate.
Qed.

End BatchFacts.
(** ** Rounding to single precision *)

Module Float32Facts.
Import Float32.
Local Open Scope Z_scope.
Local Open Scope Q_scope.

























End Float32Facts.

(** ** The random mask *)

Module MaskFacts.
Import Torch TorchFacts Transforms.
#[local] Arguments get : simpl never.

Section Mask.
Context {PG TG : Type}.
Context `{PyRandom.Generator PG}.
Context `{TorchRandom.Generator TG} `{!TorchRandom.Lawful TG}.
Implicit Types (w : World PG TG) (sz : list nat) (ratio : Q).

Lemma create_mask_run sz ratio dev w :
  create_mask sz ratio dev w =
    (Ok (lt_scalar (Spec.mask_draws sz dev w) ratio),
     set_torch_gen w dev
       (snd (TorchRandom.rand (numel sz) (torch_gen w dev)))).
Proof. reflexivity. Qed.






End Mask.

(** The frequency behind "true with probability [ratio]": of the 16
    equally spaced draws [0/16, 1/16, ..., 15/16], the comparison with
    the ratio [m/16] is true for exactly [m]. *)
Lemma lt_scalar_grid_count (m : nat) :
  m <= 16 ->
  let grid := map (fun k => Qmake (Z.of_nat k) 16) (seq 0 16) in
  let mask := lt_scalar (mkTensor [16] grid) (Qmake (Z.of_nat m) 16) in
  length (List.filter id (data mask)) = m.
Proof.
  intros Hm.
  do 17 (destruct m as [|m]; [vm_compute; reflexivity|]). lia.
Qed.


End MaskFacts.

(** ** The transform pipelines *)

Module PipelineFacts.
Import Monai Transforms.

(** C6: for every mean and std, [build_transforms] returns three
    pipelines: the loading one, the augmentation one and the
    augmentation one with coarse dropout.  The stages of the third are
    those of the second with one more stage among them, the coarse
    dropout, and that is their only difference. *)
Theorem build_transforms_spec (mean std : number) :
  exists (load_tf aug_v1 aug_v2 : Compose)
         (before after : list transform) (extra : transform),
    build_transforms mean std = (load_tf, aug_v1, aug_v2) /\
    transforms load_tf =
      [LoadImaged "image" false "ITKReader";
       EnsureChannelFirstd "image" false;
       Orientationd "image" "SAR";
       NormalizeIntensityd "image" mean std;
       EnsureTyped "image"] /\
    aug_v1 = get_monai_augment false /\
    aug_v2 = get_monai_augment true /\
    transforms aug_v1 = before ++ after /\
    transforms aug_v2 = before ++ extra :: after /\
    is_coarse_dropout extra = true /\
    existsb is_coarse_dropout (transforms aug_v1) = false /\
    length (transforms aug_v2) = 1 + length (transforms aug_v1).
Proof.
  eexists _, _, _.
  exists (firstn 9 (transforms (get_monai_augment false))).
  exists (skipn 9 (transforms (get_monai_augment false))).
  eexists.
  repeat split; reflexivity.
Qed.

End PipelineFacts.

(** ** The classification head *)

Module ClassifierFacts.
Import Torch TorchFacts NN Classifier.
#[local] Arguments get : simpl never.
#[local] Arguments tabulate : simpl never.

Section Head.
Context {R : Type} `{Inhabited R}.
Variables (radd rmul : R -> R -> R) (rzero : R).
Implicit Types (m : @EdemaHead R) (l : @Linear R) (x : Tensor R).

Lemma foldl_ext_in {X Y : Type} (f g : Y -> X -> Y) (xs : list X) (y : Y) :
  (forall acc e, In e xs -> f acc e = g acc e) ->
  foldl f y xs = foldl g y xs.
Proof.
  revert y. induction xs as [|e xs IH]; intros y Hfg; [reflexivity|].
  simpl. rewrite Hfg by now left. apply IH.
  intros acc e' He'. apply Hfg. now right.
Qed.

(** The layer reads its input only at the positions [pre, e] with
    [e < in_features]. *)
Lemma affine_ext l x x' (pre : list nat) (j : nat) :
  (forall e, e < in_features l -> get x (pre ++ [e]) = get x' (pre ++ [e])) ->
  affine radd rmul rzero l x pre j = affine radd rmul rzero l x' pre j.
Proof.
  intros Hx. unfold affine. f_equal.
  apply foldl_ext_in. intros acc e He. apply in_seq in He.
  rewrite Hx by lia. reflexivity.
Qed.

Lemma select_token0 x (B T E : nat) :
  shape x = [B; T; E] -> 1 <= T ->
  select_dim1 x 0 = Ok (slice_dim1 x 0) /\
  shape (slice_dim1 x 0) = [B; E] /\
  forall b e, b < B -> e < E -> get (slice_dim1 x 0) [b; e] = get x [b; 0; e].
Proof.
  intros Hs HT. unfold select_dim1, slice_dim1. rewrite Hs.
  rewrite decide_True by lia.
  split; [reflexivity|]. split; [reflexivity|].
  intros b e Hb He. now rewrite get_tabulate by in_range_tac.
Qed.

(** C5: on an embedding batch of shape (B, T, E) with [T >= 1], the
    head of [E] input and 2 output features returns logits of shape
    (B, 2), the linear layer applied to [x[:, 0]]; any batch of the
    same shape that agrees with [x] on token 0 gives the same logits,
    whatever its other tokens hold. *)
Theorem EdemaHead_forward_spec m x (B T E : nat) :
  shape x = [B; T; E] -> 1 <= T ->
  in_features (lin m) = E -> out_features (lin m) = 2 ->
  exists out : Tensor R,
    forward radd rmul rzero m x = Ok out /\
    shape out = [B; 2] /\
    wf out /\
    Linear_forward radd rmul rzero (lin m) (slice_dim1 x 0) = Ok out /\
    (forall b j, b < B -> j < 2 ->
       get out [b; j] = affine radd rmul rzero (lin m) (slice_dim1 x 0) [b] j) /\
    (forall x' : Tensor R,
       shape x' = [B; T; E] ->
       (forall b e, b < B -> e < E -> get x' [b; 0; e] = get x [b; 0; e]) ->
       forward radd rmul rzero m x' = Ok out).
Proof.
  intros Hs HT Hin Hout.
  destruct (select_token0 x B T E Hs HT) as (Hsel & Hsh & Hget).
  assert (Hfwd : forall y : Tensor R, shape y = [B; E] ->
            Linear_forward radd rmul rzero (lin m) y =
              Ok (tabulate [B; 2]
                    (fun idx => affine radd rmul rzero (lin m) y
                                       (removelast idx) (List.last idx 0)))).
  { intros y Hy. unfold Linear_forward. rewrite Hy. simpl.
    rewrite decide_True by congruence. now rewrite Hout. }
  eexists. split.
  { unfold forward. rewrite Hsel. apply Hfwd, Hsh. }
  split; [reflexivity|]. split; [apply wf_tabulate|].
  split; [apply Hfwd, Hsh|].
  split.
  { intros b j Hb Hj. now rewrite get_tabulate by in_range_tac. }
  intros x' Hs' Hagree.
  destruct (select_token0 x' B T E Hs' HT) as (Hsel' & Hsh' & Hget').
  unfold forward. rewrite Hsel', (Hfwd _ Hsh'). f_equal.
  apply tabulate_ext. intros idx Hr. split_index Hr. simpl.
  apply affine_ext. intros e He. simpl.
  rewrite Hget', Hget by lia. apply Hagree; lia.
Qed.

End Head.
End ClassifierFacts.

(** ** Re-indexing a tensor moves its elements without changing them *)

Module ReindexFacts.
Import Torch TorchFacts.
#[local] Arguments get : simpl never.
#[local] Arguments tabulate : simpl never.

Lemma ravel_inj s idx idx' :
  in_range s idx -> in_range s idx' -> ravel s idx = ravel s idx' -> idx = idx'.
Proof.
  intros Hr Hr' He.
  rewrite <- (unravel_ravel s idx Hr), <- (unravel_ravel s idx' Hr'). now rewrite He.
Qed.

Lemma unravel_inj s n n' :
  n < numel s -> n' < numel s -> unravel s n = unravel s n' -> n = n'.
Proof.
  intros Hn Hn' He.
  rewrite <- (ravel_unravel s n Hn), <- (ravel_unravel s n' Hn'). now rewrite He.
Qed.

Lemma NoDup_map_inj_in {X Y : Type} (f : X -> Y) (l : list X) :
  (forall x y, In x l -> In y l -> f x = f y -> x = y) ->
  List.NoDup l -> List.NoDup (map f l).
Proof.
  intros Hinj Hnd. induction Hnd as [|x l Hx Hnd IH]; [constructor|].
  simpl. constructor.
  - intros Hin. apply in_map_iff in Hin.
    destruct Hin as (y & Hy & Hyl).
    apply Hx.
    rewrite (Hinj x y); auto; [now left | now right].
  - apply IH. intros a b Ha Hb. apply Hinj; now right.
Qed.

Section Elements.
Context {A : Type} `{Inhabited A}.
Implicit Types (t : Tensor A) (s : list nat).

Lemma data_as_nth t :
  map (fun n => nth n (data t) inhabitant) (seq 0 (length (data t))) = data t.
Proof.
  rewrite (TransformsFacts.map_nth_seq (fun a => a) (data t) inhabitant).
  apply map_id.
Qed.

(** A tensor read through an injective re-indexing [tau] of as many
    elements holds the same elements, in another order. *)
Lemma reindex_permutation t s (tau : list nat -> list nat) :
  wf t -> numel s = numel (shape t) ->
  (forall idx, in_range s idx -> in_range (shape t) (tau idx)) ->
  (forall idx idx', in_range s idx -> in_range s idx' ->
                    tau idx = tau idx' -> idx = idx') ->
  Permutation (data (tabulate s (fun idx => get t (tau idx)))) (data t).
Proof.
  intros Hwf Hnum Hrange Hinj.
  set (phi := fun n => ravel (shape t) (tau (unravel s n))).
  assert (Hdata : data (tabulate s (fun idx => get t (tau idx)))
                  = map (fun n => nth n (data t) inhabitant)
                        (map phi (seq 0 (numel s)))).
  { unfold tabulate, get. simpl. now rewrite map_map. }
  rewrite Hdata.
  apply (Permutation_trans
           (l' := map (fun n => nth n (data t) inhabitant)
                      (seq 0 (length (data t)))));
    [|rewrite data_as_nth; reflexivity].
  apply Permutation_map. rewrite Hwf, <- Hnum.
  apply NoDup_Permutation_bis.
  - apply NoDup_map_inj_in; [|apply seq_NoDup].
    intros n n' Hn Hn' He. apply in_seq in Hn, Hn'.
    pose proof (in_range_unravel s n ltac:(lia)) as Hr.
    pose proof (in_range_unravel s n' ltac:(lia)) as Hr'.
    apply (unravel_inj s); try lia.
    apply Hinj; auto.
    apply (ravel_inj (shape t)); auto.
  - now rewrite length_map, !length_seq.
  - intros m Hm. apply in_map_iff in Hm. destruct Hm as (n & <- & Hn).
    apply in_seq in Hn. apply in_seq. split; [lia|]. simpl.
    rewrite Hnum. apply ravel_lt, Hrange, in_range_unravel. lia.
Qed.

End Elements.
End ReindexFacts.

(** ** More on the rotation helper *)

Module RotationMore.
Import Torch TorchFacts ReindexFacts Transforms.
#[local] Arguments get : simpl never.
#[local] Arguments tabulate : simpl never.
#[local] Arguments rot90 : simpl never.

(** Two indices with named coordinates are equal when their images
    under a mirroring or an exchange are. *)
Ltac solve_index_inj :=
  let He := fresh "He" in
  intros He; simpl in He; injection He; intros; subst;
  repeat (f_equal; try lia).

Section Elements.
Context {A : Type} `{Inhabited A}.
Implicit Types (t vol : Tensor A) (s idx : list nat).

Lemma flip_permutation t (ds : list nat) :
  wf t -> 4 <= rank t ->
  In ds [[1]; [2]; [3]; [2; 3]; [1; 3]; [1; 2]] ->
  Permutation (data (flip t ds)) (data t).
Proof.
  intros Hwf Hrank Hd.
  destruct t as [s d]. unfold rank in Hrank. simpl in Hrank.
  destruct s as [|n0 [|n1 [|n2 [|n3 rest]]]]; simpl in Hrank; try lia.
  clear Hrank. simpl in Hd.
  destruct Hd as [<-|[<-|[<-|[<-|[<-|[<-|[]]]]]]];
    unfold flip;
    (apply reindex_permutation;
     [ assumption
     | reflexivity
     | unfold flip_index; simpl; intros j Hr; split_index Hr; simpl;
       in_range_tac
     | unfold flip_index; simpl; intros j j' Hr Hr';
       split_index Hr; split_index Hr'; solve_index_inj ]).
Qed.

Lemma transpose_permutation t (d0 d1 : nat) :
  wf t -> 4 <= rank t -> In [d0; d1] Spec.planes ->
  Permutation (data (transpose t d0 d1)) (data t).
Proof.
  intros Hwf Hrank Hd.
  destruct t as [s d]. unfold rank in Hrank. simpl in Hrank.
  destruct s as [|n0 [|n1 [|n2 [|n3 rest]]]]; simpl in Hrank; try lia.
  clear Hrank. simpl in Hd.
  destruct Hd as [Hd|[Hd|[Hd|[]]]]; injection Hd as <- <-;
    unfold transpose;
    (apply reindex_permutation;
     [ assumption
     | unfold swap_dims; simpl; lia
     | unfold swap_dims; simpl; intros j Hr; split_index Hr; simpl;
       in_range_tac
     | unfold swap_dims; simpl; intros j j' Hr Hr';
       split_index Hr; split_index Hr'; solve_index_inj ]).
Qed.

(** What [rot90] in one of the three planes does to a well-formed
    tensor with the three spatial dimensions. *)
Lemma rot90_result t (k : Z) dims :
  wf t -> 4 <= rank t -> In dims Spec.planes -> (0 <= k <= 3)%Z ->
  exists out,
    rot90 t k dims = Ok out /\
    wf out /\
    shape out = Expect.rotated_shape k dims (shape t) /\
    Permutation (data out) (data t).
Proof.
  intros Hwf Hrank Hd Hk.
  assert (Hk' : k = 0%Z \/ k = 1%Z \/ k = 2%Z \/ k = 3%Z) by lia.
  assert (Hflip : forall ds, rank (flip t ds) = rank t) by reflexivity.
  simpl in Hd.
  destruct Hd as [<-|[<-|[<-|[]]]];
    destruct Hk' as [->|[->|[->| ->]]];
    unfold rot90; rewrite !decide_True by lia;
    match goal with
    | |- context [(?k mod 4)%Z] =>
        let v := eval vm_compute in (k mod 4)%Z in
        change (k mod 4)%Z with v
    end;
    lazy beta iota;
    eexists; (split; [reflexivity|]);
    (split; [first [assumption | apply wf_tabulate]|]);
    (split; [reflexivity|]);
    lazymatch goal with
    | |- Permutation (data (transpose (flip _ _) _ _)) _ =>
        etransitivity;
        [ apply transpose_permutation;
          [apply wf_tabulate | rewrite Hflip; assumption | simpl; auto]
        | apply flip_permutation; simpl; auto 10 ]
    | |- Permutation (data (flip _ _)) _ =>
        apply flip_permutation; simpl; auto 10
    | |- _ => reflexivity
    end.
Qed.

Lemma rotated_shape_rank (k : Z) dims s :
  length (Expect.rotated_shape k dims s) = length s.
Proof.
  unfold Expect.rotated_shape, swap_dims.
  destruct dims as [|d0 [|d1 [|? ?]]]; try reflexivity.
  destruct (Z.even k); [reflexivity|]. now rewrite !length_insert.
Qed.

Lemma rotated_shape_cubic (k : Z) dims s :
  4 <= length s -> In dims Spec.planes -> Expect.cubic s ->
  Expect.rotated_shape k dims s = s.
Proof.
  intros Hlen Hd [H12 H23].
  destruct s as [|n0 [|n1 [|n2 [|n3 rest]]]]; simpl in Hlen; try lia.
  simpl in H12, H23. subst n1 n2. simpl in Hd.
  destruct Hd as [<-|[<-|[<-|[]]]]; unfold Expect.rotated_shape;
    destruct (Z.even k); reflexivity.
Qed.

(** Turning by [k1] and then by [k2] is turning by [k1 + k2]. *)
Lemma rot90_compose t (k1 k2 : Z) dims mid :
  wf t -> 4 <= rank t -> In dims Spec.planes ->
  (0 <= k1 <= 3)%Z -> (0 <= k2 <= 3)%Z ->
  rot90 t k1 dims = Ok mid ->
  rot90 mid k2 dims = rot90 t ((k1 + k2) mod 4) dims.
Proof.
  intros Hwf Hrank Hd Hk1 Hk2.
  destruct t as [s d]. unfold rank in Hrank. simpl in Hrank.
  destruct s as [|n0 [|n1 [|n2 [|n3 rest]]]]; simpl in Hrank; try lia.
  clear Hrank.
  assert (Hk1' : k1 = 0%Z \/ k1 = 1%Z \/ k1 = 2%Z \/ k1 = 3%Z) by lia.
  assert (Hk2' : k2 = 0%Z \/ k2 = 1%Z \/ k2 = 2%Z \/ k2 = 3%Z) by lia.
  simpl in Hd.
  destruct Hd as [<-|[<-|[<-|[]]]];
    destruct Hk1' as [->|[->|[->| ->]]];
    destruct Hk2' as [->|[->|[->| ->]]];
    unfold rot90;
    (rewrite !decide_True by (unfold rank; simpl; lia));
    intros Hmid; injection Hmid as <-;
    (rewrite !decide_True by (unfold rank; simpl; lia));
    simpl; f_equal;
    first
      [ reflexivity
      | apply tensor_ext;
        [ apply wf_tabulate | assumption | reflexivity | ];
        unfold transpose, flip, swap_dims, flip_index; simpl;
        intros idx Hr; split_index Hr;
        get_tab; apply get_index_eq; repeat (f_equal; try lia)
      | unfold transpose, flip, swap_dims, flip_index; simpl;
        apply tabulate_ext;
        intros idx Hr; split_index Hr;
        get_tab; apply get_index_eq; repeat (f_equal; try lia) ].
Qed.

End Elements.

Section Helper.
Context {A : Type} `{Inhabited A}.
Context {PG TG : Type}.
Context `{PyRandom.Generator PG} `{TorchRandom.Generator TG}.
Implicit Types (vol : Tensor A) (w : World PG TG).

Lemma rot90_shape vol (k : Z) dims out :
  In dims Spec.planes -> (0 <= k <= 3)%Z ->
  rot90 vol k dims = Ok out ->
  shape out = Expect.rotated_shape k dims (shape vol).
Proof.
  intros Hd Hk.
  assert (Hk' : k = 0%Z \/ k = 1%Z \/ k = 2%Z \/ k = 3%Z) by lia.
  simpl in Hd.
  destruct Hd as [<-|[<-|[<-|[]]]];
    destruct Hk' as [->|[->|[->| ->]]];
    unfold rot90; repeat case_decide; try discriminate;
    intros Hout; injection Hout as <-; reflexivity.
Qed.

(** The helper on a store whose first draw is an axis of the table. *)
Lemma random_rotation_single_run vol w :
  (0 <= Expect.drawn_axis w <= 2)%Z ->
  random_rotation_single vol w =
    (match rot90 vol (Expect.drawn_turns w)
             (Spec.rotation_plane (Expect.drawn_axis w)) with
     | Ok out => Ok (out, (Expect.drawn_axis w * 4 + Expect.drawn_turns w)%Z)
     | Raise e => Raise e
     end,
     Expect.after_two_draws w).
Proof.
  intros Ha.
  destruct (TransformsFacts.dims_map_plane _ Ha) as (dims & Hd & Hp).
  unfold random_rotation_single, bind, py_randint, lift, ret, getitem.
  simpl. fold (Expect.drawn_axis w). rewrite Hd, Hp.
  fold (Expect.drawn_turns w).
  destruct (rot90 _ _ _); reflexivity.
Qed.

Lemma rot90_low_rank vol (k : Z) dims :
  In dims Spec.planes -> rank vol < 2 ->
  rot90 vol k dims = Raise RuntimeError.
Proof.
  intros Hd Hlow. simpl in Hd.
  destruct Hd as [<-|[<-|[<-|[]]]]; unfold rot90;
    rewrite decide_False by lia; reflexivity.
Qed.

Lemma rot90_out_of_range vol (k : Z) dims :
  In dims Spec.planes ->
  (rank vol = 2 \/ (rank vol = 3 /\ dims <> [1; 2])) ->
  rot90 vol k dims = Raise IndexError.
Proof.
  intros Hd Hlow. simpl in Hd.
  destruct Hd as [<-|[<-|[<-|[]]]]; unfold rot90;
    (rewrite decide_True by lia);
    rewrite decide_False; try reflexivity; intros (? & ?);
    destruct Hlow as [?|[? ?]]; try lia; congruence.
Qed.

Section Lawful.
Context `{!PyRandom.Lawful PG}.

Lemma drawn_axis_range w : (0 <= Expect.drawn_axis w <= 2)%Z.
Proof. apply PyRandom.randint_range. lia. Qed.

Lemma drawn_turns_range w : (0 <= Expect.drawn_turns w <= 3)%Z.
Proof. apply PyRandom.randint_range. lia. Qed.

(** X1: The output has the sizes of the input, with the two sizes of the
    rotation plane exchanged after an odd number of turns; a volume
    with three equal spatial sizes keeps its shape under every draw. *)
Theorem rotation_output_shape vol w :
  4 <= rank vol ->
  exists (out : Tensor A) (label : Z),
    random_rotation_single vol w = (Ok (out, label), Expect.after_two_draws w) /\
    shape out = Expect.rotated_shape (Expect.drawn_turns w)
                  (Spec.rotation_plane (Expect.drawn_axis w)) (shape vol) /\
    rank out = rank vol /\
    (Expect.cubic (shape vol) -> shape out = shape vol).
Proof.
  intros Hrank.
  pose proof (drawn_axis_range w) as Ha.
  pose proof (drawn_turns_range w) as Hk.
  pose proof (TransformsFacts.rotation_plane_planes _ Ha) as Hp.
  rewrite (random_rotation_single_run vol w Ha).
  destruct (rot90_defined vol (Expect.drawn_turns w) _ Hrank Hp) as (out & Hout).
  rewrite Hout. exists out. eexists. split; [reflexivity|].
  pose proof (rot90_shape vol _ _ out Hp Hk Hout) as Hs.
  split; [exact Hs|]. split.
  - unfold rank. rewrite Hs. apply rotated_shape_rank.
  - intros Hc. rewrite Hs. now apply rotated_shape_cubic.
Qed.

(** X2: The rotation moves the elements of the volume and changes none:
    the output is well formed and holds the elements of the input, in
    another order. *)
Theorem rotation_keeps_elements vol w :
  wf vol -> 4 <= rank vol ->
  exists (out : Tensor A) (label : Z),
    random_rotation_single vol w = (Ok (out, label), Expect.after_two_draws w) /\
    wf out /\
    Permutation (data out) (data vol).
Proof.
  intros Hwf Hrank.
  pose proof (drawn_axis_range w) as Ha.
  pose proof (drawn_turns_range w) as Hk.
  pose proof (TransformsFacts.rotation_plane_planes _ Ha) as Hp.
  rewrite (random_rotation_single_run vol w Ha).
  destruct (rot90_result vol (Expect.drawn_turns w) _ Hwf Hrank Hp Hk)
    as (out & Hout & Hwfo & _ & Hperm).
  rewrite Hout. exists out. eexists. split; [reflexivity|]. now split.
Qed.

(** X3: The label alone tells the rotation: its quotient by 4 is the axis
    and its remainder the number of turns, so turning the input by the
    remainder in the plane of the quotient gives the output, and
    turning the output by 4 minus the remainder gives the input. *)
Theorem rotation_label_decodes vol w :
  wf vol -> 4 <= rank vol ->
  exists (out : Tensor A) (label : Z),
    random_rotation_single vol w = (Ok (out, label), Expect.after_two_draws w) /\
    (0 <= label <= 11)%Z /\
    (label / 4)%Z = Expect.drawn_axis w /\
    (label mod 4)%Z = Expect.drawn_turns w /\
    rot90 vol (label mod 4) (Spec.rotation_plane (label / 4)) = Ok out /\
    rot90 out (4 - label mod 4) (Spec.rotation_plane (label / 4)) = Ok vol.
Proof.
  intros Hwf Hrank.
  pose proof (drawn_axis_range w) as Ha.
  pose proof (drawn_turns_range w) as Hk.
  pose proof (TransformsFacts.rotation_plane_planes _ Ha) as Hp.
  rewrite (random_rotation_single_run vol w Ha).
  destruct (rot90_inverse vol (Expect.drawn_turns w) _ Hwf Hrank Hp Hk)
    as (out & Hout & Hinv).
  rewrite Hout. exists out. eexists. split; [reflexivity|].
  set (a := Expect.drawn_axis w) in *. set (k := Expect.drawn_turns w) in *.
  assert (Hq : ((a * 4 + k) / 4)%Z = a).
  { rewrite Z.div_add_l by lia. rewrite Z.div_small by lia. lia. }
  assert (Hm : ((a * 4 + k) mod 4)%Z = k).
  { rewrite Z.add_comm, Z.mod_add by lia. apply Z.mod_small. lia. }
  rewrite Hq, Hm. repeat split; try lia; assumption.
Qed.

(** X4: A tensor of fewer than two dimensions is refused with a
    RuntimeError under every draw, and one of exactly two dimensions
    with an IndexError, every plane of the table naming a dimension it
    lacks.  A tensor of exactly three dimensions, a volume without its
    channel, is turned only when the axis drawn is 2, the one whose
    plane avoids dimension 3, and refused with an IndexError otherwise.
    A refusal comes after the two draws: Python's generator has
    advanced. *)
Theorem rotation_low_rank vol w :
  (rank vol < 2 ->
   random_rotation_single vol w
   = (Raise RuntimeError, Expect.after_two_draws w)) /\
  (rank vol = 2 ->
   random_rotation_single vol w
   = (Raise IndexError, Expect.after_two_draws w)) /\
  (rank vol = 3 ->
   (Expect.drawn_axis w = 2%Z ->
    exists out, random_rotation_single vol w
                = (Ok (out, (8 + Expect.drawn_turns w)%Z),
                   Expect.after_two_draws w)) /\
   (Expect.drawn_axis w <> 2%Z ->
    random_rotation_single vol w
    = (Raise IndexError, Expect.after_two_draws w))).
Proof.
  pose proof (drawn_axis_range w) as Ha.
  pose proof (TransformsFacts.rotation_plane_planes _ Ha) as Hp.
  rewrite (random_rotation_single_run vol w Ha).
  split; [|split; [|split]].
  - intros Hlow. rewrite rot90_low_rank; auto.
  - intros Htwo. rewrite rot90_out_of_range; auto.
  - intros Ha2. rewrite Ha2. unfold Spec.rotation_plane. simpl.
    unfold rot90. rewrite !decide_True by lia. eexists. reflexivity.
  - intros Hne. rewrite rot90_out_of_range; auto.
    right. split; [assumption|].
    unfold Spec.rotation_plane. repeat case_decide; try discriminate. lia.
Qed.

End Lawful.

(** Whatever the tensor, and whether the helper returns or raises, it
    takes exactly two draws from Python's generator and leaves torch's
    generators as they were. *)
Lemma rotation_store vol w :
  snd (random_rotation_single vol w) = Expect.after_two_draws w.
Proof.
  unfold random_rotation_single, bind, py_randint, lift, ret. simpl.
  destruct (getitem _ _); [|reflexivity].
  destruct (rot90 _ _ _); reflexivity.
Qed.

(** X5: Two runs in one plane compose: the helper run with [k1] turns and
    then, on its output, with [k2] turns about the same axis returns
    the volume that one run with [(k1 + k2) mod 4] turns returns. *)
Theorem rotations_compose vol (w1 w2 w3 : World PG TG) (axis k1 k2 : Z) :
  wf vol -> 4 <= rank vol ->
  (0 <= axis <= 2)%Z -> (0 <= k1 <= 3)%Z -> (0 <= k2 <= 3)%Z ->
  Expect.drawn_axis w1 = axis -> Expect.drawn_turns w1 = k1 ->
  Expect.drawn_axis w2 = axis -> Expect.drawn_turns w2 = k2 ->
  Expect.drawn_axis w3 = axis ->
  Expect.drawn_turns w3 = ((k1 + k2) mod 4)%Z ->
  exists mid out : Tensor A,
    fst (random_rotation_single vol w1) = Ok (mid, (axis * 4 + k1)%Z) /\
    fst (random_rotation_single mid w2) = Ok (out, (axis * 4 + k2)%Z) /\
    fst (random_rotation_single vol w3)
      = Ok (out, (axis * 4 + (k1 + k2) mod 4)%Z).
Proof.
  intros Hwf Hrank Ha Hk1 Hk2 Ha1 Hd1 Ha2 Hd2 Ha3 Hd3.
  pose proof (TransformsFacts.rotation_plane_planes _ Ha) as Hp.
  destruct (rot90_result vol k1 _ Hwf Hrank Hp Hk1)
    as (mid & Hmid & Hwfm & Hsm & _).
  assert (Hrm : 4 <= rank mid).
  { unfold rank. rewrite Hsm, rotated_shape_rank. exact Hrank. }
  destruct (rot90_defined mid k2 _ Hrm Hp) as (out & Hout).
  pose proof (rot90_compose vol k1 k2 _ mid Hwf Hrank Hp Hk1 Hk2 Hmid) as Hc.
  rewrite Hout in Hc.
  exists mid, out.
  rewrite (random_rotation_single_run vol w1) by (rewrite Ha1; exact Ha).
  rewrite (random_rotation_single_run mid w2) by (rewrite Ha2; exact Ha).
  rewrite (random_rotation_single_run vol w3) by (rewrite Ha3; exact Ha).
  rewrite Ha1, Hd1, Ha2, Hd2, Ha3, Hd3. simpl.
  rewrite Hmid, Hout, <- Hc.
  repeat split; reflexivity.
Qed.

End Helper.
End RotationMore.

(** ** More on the jigsaw helper *)

Module JigsawMore.
Import Torch TorchFacts ReindexFacts Transforms.
#[local] Arguments get : simpl never.
#[local] Arguments tabulate : simpl never.

Lemma perm_seq_NoDup (perm : list nat) (n : nat) :
  Permutation perm (seq 0 n) -> List.NoDup perm.
Proof.
  intros Hp. apply (Permutation_NoDup (Permutation_sym Hp)), seq_NoDup.
Qed.

Lemma perm_seq_small (perm : list nat) (n : nat) :
  n <= 1 -> Permutation perm (seq 0 n) -> perm = seq 0 n.
Proof.
  intros Hn Hp. destruct n as [|[|n]]; try lia; simpl in *.
  - apply Permutation_sym, Permutation_nil in Hp. exact Hp.
  - apply Permutation_sym, Permutation_length_1_inv in Hp. exact Hp.
Qed.

Section Elements.
Context {A : Type} `{Inhabited A}.
Implicit Types (t vol : Tensor A).

(** Indexing dimension 1 with a permutation keeps the elements. *)
Lemma index_dim1_permutation t (n0 n1 : nat) (rest perm : list nat) out :
  wf t -> shape t = n0 :: n1 :: rest ->
  Permutation perm (seq 0 n1) ->
  index_dim1 t perm = Ok out ->
  wf out /\ Permutation (data out) (data t).
Proof.
  intros Hwf Hs Hp. unfold index_dim1. rewrite Hs.
  pose proof (TransformsFacts.Forall_lt_perm_seq _ _ Hp) as Hall.
  rewrite decide_True by assumption.
  intros Hout. injection Hout as <-. split; [apply wf_tabulate|].
  assert (Hlen : length perm = n1)
    by now rewrite (Permutation_length Hp), length_seq.
  rewrite List.Forall_forall in Hall.
  apply reindex_permutation.
  - assumption.
  - rewrite Hs, Hlen. reflexivity.
  - rewrite Hs. intros idx Hr. split_index Hr. simpl.
    apply in_range_cons. split; [assumption|].
    apply in_range_cons. split; [|assumption].
    apply Hall, nth_In. assumption.
  - intros idx idx' Hr Hr'. split_index Hr. split_index Hr'. simpl.
    intros He. injection He as -> He ->.
    f_equal. f_equal.
    apply (proj1 (NoDup_nth perm 0) (perm_seq_NoDup _ _ Hp)); assumption.
Qed.

(** Indexing with [ix] and then with a right inverse of [ix] gives the
    tensor back. *)
Lemma index_dim1_undo t (n0 n1 : nat) (rest ix inv : list nat) out :
  wf t -> shape t = n0 :: n1 :: rest ->
  index_dim1 t ix = Ok out ->
  length inv = n1 ->
  Forall (fun i => i < length ix) inv ->
  (forall j, j < n1 -> nth (nth j inv 0) ix 0 = j) ->
  index_dim1 out inv = Ok t.
Proof.
  intros Hwf Hs Hout Hlen Hall Hinv.
  unfold index_dim1 in Hout. rewrite Hs in Hout.
  destruct (decide _) as [Hix|]; [|discriminate].
  injection Hout as <-.
  unfold index_dim1. simpl. rewrite decide_True by assumption.
  f_equal. apply tensor_ext; [apply wf_tabulate | assumption | |].
  - simpl. now rewrite Hs, Hlen.
  - simpl. rewrite Hlen. intros idx Hr. split_index Hr.
    rewrite List.Forall_forall in Hall.
    assert (Hj : nth i0 inv 0 < length ix)
      by (apply Hall, nth_In; lia).
    rewrite get_tabulate by in_range_tac.
    simpl. rewrite get_tabulate by in_range_tac.
    simpl. now rewrite Hinv.
Qed.

End Elements.

Section Helper.
Context {A : Type} `{Inhabited A}.
Context {PG TG : Type}.
Context `{PyRandom.Generator PG} `{TorchRandom.Generator TG}.
Implicit Types (vol : Tensor A) (w : World PG TG).

(** X6: A tensor without dimension 1 is returned as it is when the coin
    falls at one half or above, and refused when it falls below: the
    failure depends on the draw. *)
Theorem jigsaw_low_rank vol w :
  rank vol < 2 ->
  ((Expect.drawn_coin w < 0.5)%Q ->
   random_jigsaw_single vol w = (Raise IndexError, Expect.after_coin w)) /\
  ((0.5 <= Expect.drawn_coin w)%Q ->
   random_jigsaw_single vol w = (Ok (vol, 0%Z), Expect.after_coin w)).
Proof.
  intros Hrank. split.
  - intros Hc. apply TransformsFacts.Qltb_lt in Hc.
    unfold Expect.drawn_coin in Hc.
    unfold random_jigsaw_single, bind, py_random, lift, ret, size.
    simpl. rewrite Hc.
    rewrite (lookup_ge_None_2 (shape vol) 1) by (unfold rank in Hrank; lia).
    reflexivity.
  - intros Hc. apply TransformsFacts.Qltb_ge in Hc.
    now apply TransformsFacts.random_jigsaw_single_unchanged.
Qed.

(** X7: What the helper does to the hidden generators: it takes one draw
    from Python's generator in every case; it leaves the generators of
    the other devices alone; it leaves torch's CPU generator alone
    when the coin falls at one half or above, and advances it by one
    [randperm] when the coin falls below and the volume has a depth
    dimension. *)
Theorem jigsaw_store vol w :
  let w' := snd (random_jigsaw_single vol w) in
  py_gen w' = snd (PyRandom.random (py_gen w)) /\
  (forall d, d <> cpu -> torch_gen w' d = torch_gen w d) /\
  ((0.5 <= Expect.drawn_coin w)%Q -> torch_gen w' = torch_gen w) /\
  ((Expect.drawn_coin w < 0.5)%Q -> 2 <= rank vol ->
   torch_gen w' cpu =
     snd (TorchRandom.randperm (nth 1 (shape vol) 0) (torch_gen w cpu))).
Proof.
  intros w'. subst w'.
  destruct (Qltb (Expect.drawn_coin w) 0.5) eqn:Hc.
  - assert (Hlt := proj1 (TransformsFacts.Qltb_lt _ _) Hc).
    unfold Expect.drawn_coin in Hc.
    destruct (shape vol) as [|n0 [|n1 rest]] eqn:Hs.
    3: { rewrite (TransformsFacts.random_jigsaw_single_permuted
                    vol w n0 n1 rest Hs Hc). simpl.
         split; [reflexivity|]. split.
         { intros d Hd. destruct (decide (d = cpu)); [contradiction|reflexivity]. }
         split.
         { intros Hge. exfalso. exact (Qlt_not_le _ _ Hlt Hge). }
         intros _ _.
         destruct (decide (cpu = cpu)); [reflexivity|contradiction]. }
    all: unfold random_jigsaw_single, bind, py_random, lift, ret, size;
      simpl; rewrite Hc, Hs; simpl;
      (split; [reflexivity|]); (split; [reflexivity|]);
      split; [intros Hge; exfalso; exact (Qlt_not_le _ _ Hlt Hge)
             |unfold rank; rewrite Hs; simpl; lia].
  - assert (Hge := proj1 (TransformsFacts.Qltb_ge _ _) Hc).
    rewrite (TransformsFacts.random_jigsaw_single_unchanged vol w Hc). simpl.
    split; [reflexivity|]. split; [reflexivity|]. split; [reflexivity|].
    intros Hlt. exfalso. exact (Qlt_not_le _ _ Hlt Hge).
Qed.

Section Lawful.
Context `{!TorchRandom.Lawful TG}.

(** X8: A volume with at most one depth slice comes back unchanged under
    every draw, with either label. *)
Theorem jigsaw_single_slice vol w :
  wf vol -> 2 <= rank vol -> nth 1 (shape vol) 0 <= 1 ->
  exists label : Z,
    fst (random_jigsaw_single vol w) = Ok (vol, label) /\
    (label = 0%Z \/ label = 1%Z).
Proof.
  intros Hwf Hrank Hdepth.
  destruct (shape vol) as [|n0 [|n1 rest]] eqn:Hs;
    unfold rank in Hrank; rewrite Hs in Hrank; simpl in Hrank; try lia.
  simpl in Hdepth.
  destruct (Qltb (fst (PyRandom.random (py_gen w))) 0.5) eqn:Hc.
  - rewrite (TransformsFacts.random_jigsaw_single_permuted
               vol w n0 n1 rest Hs Hc). simpl.
    rewrite (perm_seq_small _ n1 Hdepth
               (TorchRandom.randperm_perm n1 (torch_gen w cpu))).
    rewrite (TransformsFacts.index_dim1_identity vol n0 n1 rest Hwf Hs).
    exists 1%Z. auto.
  - rewrite (TransformsFacts.random_jigsaw_single_unchanged vol w Hc).
    exists 0%Z. auto.
Qed.

(** X9: The shuffle moves the elements of the volume and changes none: the
    output is well formed and holds the elements of the input, in
    another order. *)
Theorem jigsaw_keeps_elements vol w :
  wf vol -> 2 <= rank vol ->
  exists (out : Tensor A) (label : Z),
    fst (random_jigsaw_single vol w) = Ok (out, label) /\
    wf out /\
    Permutation (data out) (data vol).
Proof.
  intros Hwf Hrank.
  destruct (shape vol) as [|n0 [|n1 rest]] eqn:Hs;
    unfold rank in Hrank; rewrite Hs in Hrank; simpl in Hrank; try lia.
  destruct (Qltb (fst (PyRandom.random (py_gen w))) 0.5) eqn:Hc.
  - rewrite (TransformsFacts.random_jigsaw_single_permuted
               vol w n0 n1 rest Hs Hc). simpl.
    pose proof (TorchRandom.randperm_perm n1 (torch_gen w cpu)) as Hp.
    destruct (TransformsFacts.index_dim1_slices vol n0 n1 rest _ Hs
                (TransformsFacts.Forall_lt_perm_seq _ _ Hp))
      as (out & Hout & _).
    rewrite Hout. exists out, 1%Z. split; [reflexivity|].
    exact (index_dim1_permutation vol n0 n1 rest _ out Hwf Hs Hp Hout).
  - rewrite (TransformsFacts.random_jigsaw_single_unchanged vol w Hc).
    exists vol, 0%Z. split; [reflexivity|]. split; [assumption|reflexivity].
Qed.

(** X10: A shuffle is undone by indexing with the inverse permutation: when
    the helper returns label 1 for the permutation [perm], indexing its
    output along the depth with any [inv] such that
    [perm[inv[j]] = j] for every [j] gives the input volume. *)
Theorem jigsaw_undone_by_inverse vol w (inv : list nat) :
  wf vol -> 2 <= rank vol ->
  (Expect.drawn_coin w < 0.5)%Q ->
  let n1 := nth 1 (shape vol) 0 in
  let perm := fst (TorchRandom.randperm n1 (torch_gen w cpu)) in
  length inv = n1 ->
  Forall (fun i => i < n1) inv ->
  (forall j, j < n1 -> nth (nth j inv 0) perm 0 = j) ->
  exists out : Tensor A,
    fst (random_jigsaw_single vol w) = Ok (out, 1%Z) /\
    index_dim1 out inv = Ok vol.
Proof.
  intros Hwf Hrank Hc n1 perm Hlen Hall Hinv.
  destruct (shape vol) as [|n0 [|m1 rest]] eqn:Hs;
    unfold rank in Hrank; rewrite Hs in Hrank; simpl in Hrank; try lia.
  simpl in n1. subst n1.
  apply TransformsFacts.Qltb_lt in Hc. unfold Expect.drawn_coin in Hc.
  rewrite (TransformsFacts.random_jigsaw_single_permuted
             vol w n0 m1 rest Hs Hc). simpl.
  pose proof (TorchRandom.randperm_perm m1 (torch_gen w cpu)) as Hp.
  fold perm in Hp |- *.
  destruct (TransformsFacts.index_dim1_slices vol n0 m1 rest perm Hs
              (TransformsFacts.Forall_lt_perm_seq _ _ Hp))
    as (out & Hout & _).
  rewrite Hout. exists out. split; [reflexivity|].
  apply (index_dim1_undo vol n0 m1 rest perm inv out); auto.
  now rewrite (Permutation_length Hp), length_seq.
Qed.

End Lawful.
End Helper.
End JigsawMore.

(** ** More on batch augmentation *)

Module BatchMore.
Import Torch TorchFacts Transforms BatchFacts.
#[local] Arguments get : simpl never.
#[local] Arguments tabulate : simpl never.

Section Batch.
Context {A : Type} `{Inhabited A}.
Context {St : Type}.
Implicit Types (imgs t : Tensor A) (st : St).
Implicit Types (tf : gmap string (Tensor A) -> M St (gmap string (Tensor A))).

(** The comprehension stops at the first sample that fails. *)
Lemma for_each_stops tf (pre post : list (Tensor A)) (x : Tensor A)
    st outs st1 (e : exn) st2 :
  Spec.applied_in_order tf pre st outs st1 ->
  Spec.on_sample tf x st1 = (Raise e, st2) ->
  for_each (Spec.on_sample tf) (pre ++ x :: post) st = (Raise e, st2).
Proof.
  intros Happ Hx.
  induction Happ as [st|y ys st sta stb d o os Htf Hd _ IH].
  - simpl app. rewrite for_each_cons, Hx. reflexivity.
  - simpl app. rewrite for_each_cons, on_sample_run, Htf.
    unfold getitem. rewrite Hd. now rewrite (IH Hx).
Qed.

Lemma samples_split imgs (n i : nat) :
  i < n ->
  map (select_dim0 imgs) (seq 0 n) =
    map (select_dim0 imgs) (seq 0 i)
    ++ select_dim0 imgs i :: map (select_dim0 imgs) (seq (S i) (n - S i)).
Proof.
  intros Hi. replace n with (i + S (n - S i)) at 1 by lia.
  rewrite seq_app, map_app. reflexivity.
Qed.

(** The call on a tensor with a leading dimension: the comprehension,
    then the stacking. *)
Lemma augment_batch_run imgs tf st (n : nat) (s : list nat) :
  shape imgs = n :: s ->
  augment_batch imgs tf st =
    match for_each (Spec.on_sample tf)
                   (map (select_dim0 imgs) (seq 0 n)) st with
    | (Ok outs, st') => (stack outs, st')
    | (Raise e, st') => (Raise e, st')
    end.
Proof.
  intros Hs. rewrite augment_batch_unfold. unfold bind at 1. unfold lift at 1.
  rewrite (iterate_samples imgs n s Hs). unfold bind, lift.
  destruct (for_each _ _ st) as [[outs|e] st']; reflexivity.
Qed.

(** X11: Without samples the transform is never called: a tensor without
    dimensions cannot be iterated, and an empty list cannot be
    stacked.  The store is left as it was. *)
Theorem augment_batch_no_samples imgs tf st :
  (shape imgs = [] -> augment_batch imgs tf st = (Raise TypeError, st)) /\
  (forall s, shape imgs = 0 :: s ->
             augment_batch imgs tf st = (Raise RuntimeError, st)).
Proof.
  split.
  - intros Hs. rewrite augment_batch_unfold.
    unfold bind, lift, iterate. now rewrite Hs.
  - intros s Hs. now rewrite (augment_batch_run imgs tf st 0 s Hs).
Qed.

(** X12: The first failure ends the call.  When the transform has handled
    the samples before the [i]-th and raises on the [i]-th, or returns
    a mapping without the key "image" for it, [augment_batch] raises
    the same exception, or [KeyError], and the store is the one that
    call left: the later samples are never passed to the transform. *)
Theorem augment_batch_first_failure imgs tf st (n i : nat) (s : list nat)
    (outs : list (Tensor A)) (st1 st2 : St) :
  shape imgs = n :: s -> i < n ->
  Spec.applied_in_order tf (map (select_dim0 imgs) (seq 0 i)) st outs st1 ->
  (forall e : exn,
      tf {[ "image" := select_dim0 imgs i ]} st1 = (Raise e, st2) ->
      augment_batch imgs tf st = (Raise e, st2)) /\
  (forall d : gmap string (Tensor A),
      tf {[ "image" := select_dim0 imgs i ]} st1 = (Ok d, st2) ->
      d !! "image" = None ->
      augment_batch imgs tf st = (Raise KeyError, st2)).
Proof.
  intros Hs Hi Happ.
  rewrite (augment_batch_run imgs tf st n s Hs), (samples_split imgs n i Hi).
  split.
  - intros e Htf.
    rewrite (for_each_stops tf _ _ _ st outs st1 e st2 Happ); [reflexivity|].
    now rewrite on_sample_run, Htf.
  - intros d Htf Hd.
    rewrite (for_each_stops tf _ _ _ st outs st1 KeyError st2 Happ);
      [reflexivity|].
    rewrite on_sample_run, Htf. unfold getitem. now rewrite Hd.
Qed.

(** X13: Images of different shapes cannot be stacked: when the transform
    has handled every sample and two of the images it returned differ
    in shape, [augment_batch] raises [RuntimeError], after all the
    calls of the transform. *)
Theorem augment_batch_shape_mismatch imgs tf st (n : nat) (s : list nat)
    (outs : list (Tensor A)) (st' : St) (i j : nat) (oi oj : Tensor A) :
  shape imgs = n :: s ->
  Spec.applied_in_order tf (map (select_dim0 imgs) (seq 0 n)) st outs st' ->
  outs !! i = Some oi -> outs !! j = Some oj -> shape oi <> shape oj ->
  augment_batch imgs tf st = (Raise RuntimeError, st').
Proof.
  intros Hs Happ Hoi Hoj Hne.
  rewrite (augment_batch_run imgs tf st n s Hs).
  apply for_each_applied in Happ. rewrite Happ.
  unfold stack. destruct outs as [|o0 outs']; [reflexivity|].
  rewrite decide_False; [reflexivity|].
  intros Hall. rewrite List.Forall_forall in Hall.
  apply Hne. transitivity (shape o0).
  - apply Hall. apply list_elem_of_In. eapply list_elem_of_lookup_2; eauto.
  - symmetry. apply Hall. apply list_elem_of_In.
    eapply list_elem_of_lookup_2; eauto.
Qed.

End Batch.
End BatchMore.

(** ** More on the random mask *)

Module MaskMore.
Import Torch TorchFacts Transforms MaskFacts.
#[local] Arguments get : simpl never.

Section Mask.
Context {PG TG : Type}.
Context `{PyRandom.Generator PG}.
Context `{TorchRandom.Generator TG}.
Implicit Types (w : World PG TG) (sz : list nat) (ratio : Q).

(** X15: The mask is fixed by the generator of the device it is drawn on:
    stores that agree on that generator give the same mask, whatever
    Python's generator and the generators of the other devices hold. *)
Theorem create_mask_device_generator sz ratio dev (w1 w2 : World PG TG) :
  torch_gen w1 dev = torch_gen w2 dev ->
  fst (create_mask sz ratio dev w1) = fst (create_mask sz ratio dev w2) /\
  torch_gen (snd (create_mask sz ratio dev w1)) dev
    = torch_gen (snd (create_mask sz ratio dev w2)) dev.
Proof.
  intros Hg. rewrite !create_mask_run. unfold Spec.mask_draws. simpl.
  rewrite Hg. split; [reflexivity|].
  destruct (decide (dev = dev)); [reflexivity|contradiction].
Qed.

Section Lawful.
Context `{!TorchRandom.Lawful TG}.


End Lawful.
End Mask.
End MaskMore.

(** ** More on the pipelines *)

Module PipelineMore.
Import Monai Transforms.

Lemma valid_prob_lit (q : Q) :
  (0 <= q)%Q -> (q <= 1)%Q -> Stage.valid_prob (Lit q).
Proof. intros H0 H1. exists q. auto. Qed.

Ltac prob_tac :=
  let p := fresh "p" in
  let Hp := fresh "Hp" in
  intros p Hp; simpl in Hp;
  first [ discriminate
        | injection Hp as <-; apply valid_prob_lit; unfold Qle; simpl; lia ].

(** X16: Whatever the flag, the augmentation pipeline holds a coarse-dropout
    stage exactly when the flag is set, and without that stage it is
    the pipeline of the unset flag.  Its stages all act on the key
    "image", the key [augment_batch] wraps a sample under; the last one
    is the type conversion; every probability is a literal between 0
    and 1. *)
Theorem get_monai_augment_stages (with_coarse : bool) :
  let stages := transforms (get_monai_augment with_coarse) in
  existsb is_coarse_dropout stages = with_coarse /\
  List.filter (fun t => negb (is_coarse_dropout t)) stages
    = transforms (get_monai_augment false) /\
  length stages = 10 + (if with_coarse then 1 else 0) /\
  Forall (fun t => Stage.keys_of t = "image") stages /\
  last stages = Some (EnsureTyped "image") /\
  Forall (fun t => forall p, Stage.prob_of t = Some p -> Stage.valid_prob p) stages.
Proof.
  destruct with_coarse; simpl;
    (split; [reflexivity|]); (split; [reflexivity|]);
    (split; [reflexivity|]);
    (split; [repeat (apply List.Forall_cons; [reflexivity|]); apply List.Forall_nil|]);
    (split; [reflexivity|]);
    repeat (apply List.Forall_cons; [prob_tac|]); apply List.Forall_nil.
Qed.

(** X17: The mean and the standard deviation reach the loading pipeline
    only, in its one normalisation stage: the two augmentation
    pipelines are the same for every mean and std, the loading pipeline
    has no random stage and acts on the key "image" throughout, and
    two calls give the same loading pipeline only for the same mean
    and std. *)
Theorem build_transforms_mean_std (mean std mean' std' : number) :
  let '(load_tf, aug_v1, aug_v2) := build_transforms mean std in
  let '(load_tf', aug_v1', aug_v2') := build_transforms mean' std' in
  aug_v1 = aug_v1' /\ aug_v2 = aug_v2' /\
  List.filter Stage.is_normalize (transforms load_tf)
    = [NormalizeIntensityd "image" mean std] /\
  Forall (fun t => Stage.keys_of t = "image") (transforms load_tf) /\
  Forall (fun t => Stage.prob_of t = None) (transforms load_tf) /\
  (load_tf = load_tf' -> mean = mean' /\ std = std').
Proof.
  simpl.
  split; [reflexivity|]. split; [reflexivity|]. split; [reflexivity|].
  split; [repeat (apply List.Forall_cons; [reflexivity|]); apply List.Forall_nil|].
  split; [repeat (apply List.Forall_cons; [reflexivity|]); apply List.Forall_nil|].
  intros Heq. injection Heq. auto.
Qed.

End PipelineMore.

(** ** More on the classification head and the full model *)

Module ClassifierMore.
Import Torch TorchFacts NN Classifier ClassifierFacts.
#[local] Arguments get : simpl never.
#[local] Arguments tabulate : simpl never.

Lemma last_cons (a : nat) (l : list nat) :
  last (a :: l) = Some (List.last (a :: l) 0).
Proof.
  revert a. induction l as [|r l IH]; intros a; [reflexivity|].
  change (last (a :: r :: l)) with (last (r :: l)).
  change (List.last (a :: r :: l) 0) with (List.last (r :: l) 0).
  apply IH.
Qed.

Section Head.
Context {R : Type} `{Inhabited R}.
Variables (radd rmul : R -> R -> R) (rzero : R).
Implicit Types (m : @EdemaHead R) (l : @Linear R) (x : Tensor R).

(** The head on any input with a non-empty dimension 1: the token at
    position 0 is selected, and the layer accepts it exactly when its
    last size is [in_features]. *)
Lemma forward_run m x (n0 n1 : nat) (rest : list nat) :
  shape x = n0 :: n1 :: rest -> 1 <= n1 ->
  forward radd rmul rzero m x =
    if decide (List.last (n0 :: rest) 0 = in_features (lin m)) then
      Ok (tabulate (removelast (n0 :: rest) ++ [out_features (lin m)])
            (fun idx => affine radd rmul rzero (lin m) (slice_dim1 x 0)
                               (removelast idx) (List.last idx 0)))
    else Raise RuntimeError.
Proof.
  intros Hs Hn1. unfold forward, select_dim1. rewrite Hs.
  rewrite decide_True by lia.
  unfold Linear_forward, slice_dim1. rewrite Hs.
  change (shape (tabulate (n0 :: rest) _)) with (n0 :: rest).
  rewrite last_cons. reflexivity.
Qed.

(** X18: What the head refuses: an input without dimension 1 or without a
    token raises [IndexError]; a batch of token embeddings whose
    embedding size is not the one the head was built for raises
    [RuntimeError]. *)
Theorem forward_errors m x :
  (rank x < 2 -> forward radd rmul rzero m x = Raise IndexError) /\
  (forall n0 rest, shape x = n0 :: 0 :: rest ->
                   forward radd rmul rzero m x = Raise IndexError) /\
  (forall B T E, shape x = [B; T; E] -> 1 <= T -> E <> in_features (lin m) ->
                 forward radd rmul rzero m x = Raise RuntimeError).
Proof.
  split; [|split].
  - intros Hrank. unfold forward, select_dim1, rank in *.
    destruct (shape x) as [|n0 [|n1 rest]]; simpl in Hrank;
      [reflexivity | reflexivity | lia].
  - intros n0 rest Hs. unfold forward, select_dim1. rewrite Hs.
    reflexivity.
  - intros B T E Hs HT HE. rewrite (forward_run m x B T [E] Hs HT).
    simpl. now rewrite decide_False.
Qed.

(** X19: A matrix of class-token embeddings, of shape (B, E) with no token
    dimension, is not read as one: the head takes its column 0, a
    vector of [B] numbers.  The call raises unless [B] happens to be
    the embedding size, and then returns [classes] logits for the
    whole batch instead of one row per sample. *)
Theorem forward_on_matrix m x (B E : nat) :
  shape x = [B; E] -> 1 <= E ->
  (B <> in_features (lin m) ->
   forward radd rmul rzero m x = Raise RuntimeError) /\
  (B = in_features (lin m) ->
   exists out, forward radd rmul rzero m x = Ok out /\
               shape out = [out_features (lin m)]).
Proof.
  intros Hs HE. rewrite (forward_run m x B E [] Hs HE). simpl.
  split; intros HB.
  - now rewrite decide_False.
  - rewrite decide_True by assumption. eexists. split; reflexivity.
Qed.

(** X20: The logits of a sample depend on that sample's token 0 alone: two
    batches of one shape that agree on token 0 of row [b] give the same
    logits in row [b], whatever their other tokens and other rows hold.
    The output has one row per sample and one column per class. *)
Theorem forward_rows_independent m x x' (B T E b : nat) :
  shape x = [B; T; E] -> shape x' = [B; T; E] ->
  1 <= T -> E = in_features (lin m) ->
  b < B ->
  (forall e, e < E -> get x' [b; 0; e] = get x [b; 0; e]) ->
  exists out out' : Tensor R,
    forward radd rmul rzero m x = Ok out /\
    forward radd rmul rzero m x' = Ok out' /\
    shape out = [B; out_features (lin m)] /\
    shape out' = [B; out_features (lin m)] /\
    forall j, j < out_features (lin m) -> get out' [b; j] = get out [b; j].
Proof.
  intros Hs Hs' HT HE Hb Hagree.
  rewrite (forward_run m x B T [E] Hs HT).
  rewrite (forward_run m x' B T [E] Hs' HT).
  simpl. rewrite !decide_True by assumption.
  eexists _, _. split; [reflexivity|]. split; [reflexivity|].
  split; [reflexivity|]. split; [reflexivity|].
  intros j Hj. rewrite !get_tabulate by in_range_tac. simpl.
  destruct (select_token0 x B T E Hs HT) as (_ & _ & Hget).
  destruct (select_token0 x' B T E Hs' HT) as (_ & _ & Hget').
  apply affine_ext. intros e He. simpl.
  rewrite Hget', Hget by lia. apply Hagree. lia.
Qed.

End Head.

Section M3T.
Context {R : Type} `{Inhabited R}.
Variables (radd rmul : R -> R -> R) (rzero : R).
Context {Encoder Aux : Type}.
Variable Encoder_init : gmap string nat -> result Encoder.
Variable Encoder_forward : Encoder -> Tensor R -> result (Tensor R * Aux).
Implicit Types (cfg : gmap string nat) (x cls : Tensor R).

(** X21: Building the model: a failure of the encoder's constructor comes
    first and is passed on; a configuration without "emb_size" then
    raises [KeyError]; otherwise the head takes [cfg["emb_size"]]
    inputs and gives 2 outputs, whatever else the configuration
    holds. *)
Theorem M3T_Edema_init_spec cfg (w b : Tensor R) :
  (forall e, Encoder_init cfg = Raise e ->
             Model.M3T_Edema_init Encoder_init cfg w b = Raise e) /\
  (forall enc, Encoder_init cfg = Ok enc -> cfg !! "emb_size" = None ->
               Model.M3T_Edema_init Encoder_init cfg w b = Raise KeyError) /\
  (forall enc E, Encoder_init cfg = Ok enc -> cfg !! "emb_size" = Some E ->
     exists mdl,
       Model.M3T_Edema_init Encoder_init cfg w b = Ok mdl /\
       Model.encoder mdl = enc /\
       in_features (lin (Model.head mdl)) = E /\
       out_features (lin (Model.head mdl)) = 2).
Proof.
  unfold Model.M3T_Edema_init, getitem. split; [|split].
  - intros e ->. reflexivity.
  - intros enc -> ->. reflexivity.
  - intros enc E -> ->. eexists. repeat split.
Qed.

(** X22: The forward pass of the model.  An exception of the encoder is
    passed on.  When the encoder returns token embeddings of shape
    (B, T, E) with [T >= 1] and [E] is the configured embedding size,
    the result is a tensor of shape (B, 2); it is the same for every
    encoder output that agrees on token 0, whatever the auxiliary
    output.  When [E] is not the configured size the call raises
    [RuntimeError]. *)
Theorem M3T_Edema_forward_spec cfg (w b : Tensor R) mdl x :
  Model.M3T_Edema_init Encoder_init cfg w b = Ok mdl ->
  (forall e, Encoder_forward (Model.encoder mdl) x = Raise e ->
             Model.M3T_Edema_forward radd rmul rzero Encoder_forward mdl x
             = Raise e) /\
  (forall cls aux B T E,
     Encoder_forward (Model.encoder mdl) x = Ok (cls, aux) ->
     shape cls = [B; T; E] -> 1 <= T ->
     (cfg !! "emb_size" <> Some E ->
      Model.M3T_Edema_forward radd rmul rzero Encoder_forward mdl x
      = Raise RuntimeError) /\
     (cfg !! "emb_size" = Some E ->
      exists out,
        Model.M3T_Edema_forward radd rmul rzero Encoder_forward mdl x = Ok out /\
        shape out = [B; 2] /\
        forall enc' x' cls' aux',
          Encoder_forward enc' x' = Ok (cls', aux') ->
          shape cls' = [B; T; E] ->
          (forall i e, i < B -> e < E ->
                       get cls' [i; 0; e] = get cls [i; 0; e]) ->
          Model.M3T_Edema_forward radd rmul rzero Encoder_forward
            (Model.mkM3T_Edema enc' (Model.head mdl)) x' = Ok out)).
Proof.
  intros Hinit. unfold Model.M3T_Edema_init, getitem in Hinit.
  destruct (Encoder_init cfg) as [enc|]; [|discriminate].
  destruct (cfg !! "emb_size") as [E0|] eqn:Hcfg; [|discriminate].
  injection Hinit as <-. simpl.
  split.
  - intros e He. unfold Model.M3T_Edema_forward. simpl. now rewrite He.
  - intros cls aux B T E Henc Hs HT.
    unfold Model.M3T_Edema_forward. simpl. rewrite Henc.
    rewrite (forward_run radd rmul rzero _ cls B T [E] Hs HT). simpl.
    split.
    + intros Hne. rewrite decide_False; [reflexivity|]. congruence.
    + intros Heq. injection Heq as ->.
      rewrite decide_True by reflexivity.
      eexists. split; [reflexivity|]. split; [reflexivity|].
      intros enc' x' cls' aux' Henc' Hs' Hagree. rewrite Henc'.
      rewrite (forward_run radd rmul rzero _ cls' B T [E] Hs' HT). simpl.
      rewrite decide_True by reflexivity. f_equal.
      apply tabulate_ext. intros idx Hr. split_index Hr. simpl.
      destruct (select_token0 cls B T E Hs HT) as (_ & _ & Hget).
      destruct (select_token0 cls' B T E Hs' HT) as (_ & _ & Hget').
      apply affine_ext. intros e He. simpl in *.
      rewrite Hget', Hget by lia. apply Hagree; lia.
Qed.

End M3T.
End ClassifierMore.

(** ** The helpers on sample inputs *)

Module Examples.
Import Torch Transforms.

(** One quarter turn of [[1, 2], [3, 4]] is [[2, 4], [1, 3]]: from the
    first rotation dimension towards the second. *)
Example rot90_once :
  rot90 (mkTensor [2; 2] [1; 2; 3; 4]%Z) 1 [0; 1]
    = Ok (mkTensor [2; 2] [2; 4; 1; 3]%Z).
Proof. reflexivity. Qed.

Example rot90_negative_turns :
  rot90 (mkTensor [2; 2] [1; 2; 3; 4]%Z) (-1) [0; 1]
    = rot90 (mkTensor [2; 2] [1; 2; 3; 4]%Z) 3 [0; 1].
Proof. reflexivity. Qed.

Example rot90_same_dims_raises :
  rot90 Samples.vol 1 [2; 2] = Raise RuntimeError.
Proof. reflexivity. Qed.

(** Draws axis 0 and one turn: every depth slice is turned, label 1. *)
Example rotation_axis0_turn1 :
  fst (random_rotation_single Samples.vol (Scripted.world [0; 1]%Z []))
    = Ok (mkTensor [1; 2; 2; 2] [2; 4; 1; 3; 6; 8; 5; 7]%Z, 1%Z).
Proof. reflexivity. Qed.

(** Draws axis 2 and three turns: label 11. *)
Example rotation_axis2_turn3 :
  fst (random_rotation_single Samples.vol (Scripted.world [2; 3]%Z []))
    = Ok (mkTensor [1; 2; 2; 2] [5; 6; 1; 2; 7; 8; 3; 4]%Z, 11%Z).
Proof. reflexivity. Qed.

(** A volume without the three spatial dimensions cannot be turned. *)
Example rotation_low_rank_raises :
  fst (random_rotation_single (mkTensor [2; 2] [1; 2; 3; 4]%Z)
         (Scripted.world [0; 1]%Z []))
    = Raise IndexError.
Proof. reflexivity. Qed.

(** The coin falls below one half and the permutation is [1, 0]: the
    two depth slices change places. *)
Example jigsaw_swapped :
  fst (random_jigsaw_single Samples.vol (Scripted.world [0%Z] [1; 0]%Z))
    = Ok (mkTensor [1; 2; 2; 2] [5; 6; 7; 8; 1; 2; 3; 4]%Z, 1%Z).
Proof. vm_compute. reflexivity. Qed.

(** The coin falls at one half or above: nothing is drawn from torch. *)
Example jigsaw_untouched :
  random_jigsaw_single Samples.vol
      (Scripted.world [4503599627370496%Z] [1; 0]%Z)
    = (Ok (Samples.vol, 0%Z), Scripted.world [] [1; 0]%Z).
Proof. vm_compute. reflexivity. Qed.

Example augment_batch_identity :
  fst (augment_batch Samples.batch Samples.identity_tf tt) = Ok Samples.batch.
Proof. vm_compute. reflexivity. Qed.

(** A transform that loses the key "image" makes the call raise. *)
Example augment_batch_missing_key :
  fst (augment_batch Samples.batch
         (fun _ => ret (S := unit) (∅ : gmap string (Tensor Z))) tt)
    = Raise KeyError.
Proof. vm_compute. reflexivity. Qed.

(** Draws 0, (2^24 - 1)/2^24 and four more against the ratio 0.3. *)
Example create_mask_sample :
  fst (create_mask [2; 3] 0.3 cpu
         (Scripted.world []
            [0; 16777215; 5033164; 5033165; 5033166; 1]%Z))
    = Ok (mkTensor [2; 3] [true; false; true; false; false; true]).
Proof. vm_compute. reflexivity. Qed.

(** The logits of the sample head read token 0 only. *)
Example head_sample :
  Classifier.forward Z.add Z.mul 0%Z Samples.head Samples.tokens
    = Ok (mkTensor [1; 2] [11; 22]%Z) /\
  Classifier.forward Z.add Z.mul 0%Z Samples.head Samples.tokens'
    = Ok (mkTensor [1; 2] [11; 22]%Z).
Proof. split; vm_compute; reflexivity. Qed.

(** Without a token there is nothing to read. *)
Example head_no_token :
  Classifier.forward Z.add Z.mul 0%Z Samples.head (mkTensor [1; 0; 2] [])
    = Raise IndexError.
Proof. reflexivity. Qed.

End Examples.

(** ** The theorems at sample inputs *)

Module Witnesses.
Import Torch Transforms.

Lemma random_rotation_single_spec_witness :
  4 <= rank Samples.vol /\
  exists (axis k : Z) (out : Tensor Z) w',
    (0 <= axis <= 2)%Z /\ (0 <= k <= 3)%Z /\
    rot90 Samples.vol k (Spec.rotation_plane axis) = Ok out /\
    random_rotation_single Samples.vol (Scripted.world [2; 3]%Z [])
      = (Ok (out, (axis * 4 + k)%Z), w').
Proof.
  split; [unfold rank; simpl; lia|].
  destruct (TransformsFacts.random_rotation_single_spec
              Samples.vol (Scripted.world [2; 3]%Z []))
    as (axis & k & out & w' & _ & _ & Ha & Hk & Hrot & _ & Hrun & _).
  - unfold rank; simpl; lia.
  - exists axis, k, out, w'. repeat split; try apply Ha; try apply Hk; assumption.
Defined.

Lemma random_rotation_single_inverse_witness :
  exists (out : Tensor Z) w',
    random_rotation_single Samples.vol (Scripted.world [2; 3]%Z [])
      = (Ok (out, 11%Z), w') /\
    rot90 out (4 - 3) (Spec.rotation_plane 2) = Ok Samples.vol.
Proof.
  apply (TransformsFacts.random_rotation_single_inverse
           Samples.vol (Scripted.world [2; 3]%Z []) 2 3).
  - reflexivity.
  - unfold rank; simpl; lia.
  - lia.
  - lia.
  - reflexivity.
  - reflexivity.
Defined.

Lemma random_jigsaw_single_spec_witness :
  2 <= rank Samples.vol /\
  exists (out : Tensor Z) (label : Z) w',
    random_jigsaw_single Samples.vol (Scripted.world [0%Z] [1; 0]%Z)
      = (Ok (out, label), w') /\
    (label = 0%Z -> out = Samples.vol) /\
    (label = 1%Z ->
       Permutation (slices_dim1 out) (slices_dim1 Samples.vol)).
Proof.
  split; [unfold rank; simpl; lia|].
  destruct (TransformsFacts.random_jigsaw_single_spec
              Samples.vol (Scripted.world [0%Z] [1; 0]%Z))
    as (out & label & w' & Hrun & _ & _ & _ & H0 & H1).
  - unfold rank; simpl; lia.
  - exists out, label, w'. split; [exact Hrun|]. split; [exact H0|].
    intros Hl. apply H1. exact Hl.
Defined.

Lemma jigsaw_label_not_recoverable_witness :
  exists w1' w2',
    random_jigsaw_single Samples.vol (Scripted.world [0%Z] [0; 0]%Z)
      = (Ok (Samples.vol, 1%Z), w1') /\
    random_jigsaw_single Samples.vol
        (Scripted.world [9007199254740991%Z] [])
      = (Ok (Samples.vol, 0%Z), w2').
Proof.
  apply (TransformsFacts.jigsaw_label_not_recoverable Samples.vol
           (Scripted.world [0%Z] [0; 0]%Z)
           (Scripted.world [9007199254740991%Z] [])).
  - reflexivity.
  - unfold rank; simpl; lia.
  - reflexivity.
  - reflexivity.
  - vm_compute. discriminate.
Defined.

Lemma helpers_determined_by_generators_witness :
  fst (random_rotation_single Samples.vol (Scripted.world [1; 2]%Z [5%Z]))
    = fst (random_rotation_single Samples.vol (Scripted.world [1; 2]%Z [7%Z]))
  /\
  fst (random_jigsaw_single Samples.vol (Scripted.world [0%Z] [1; 0]%Z))
    = fst (random_jigsaw_single Samples.vol
             (mkWorld [0%Z]
                (fun d => match d with cpu => [1; 0]%Z | cuda _ => [4%Z] end))).
Proof.
  destruct (TransformsFacts.helpers_determined_by_generators
              (A:=Z) (PG:=Scripted.script) (TG:=Scripted.script))
    as [Hrot Hjig].
  split.
  - apply Hrot. reflexivity.
  - apply Hjig; reflexivity.
Defined.

Lemma augment_batch_spec_witness :
  exists st',
    augment_batch Samples.batch Samples.identity_tf tt
      = (Ok Samples.batch, st').
Proof.
  destruct (BatchFacts.augment_batch_spec Samples.batch Samples.identity_tf tt
              2 [1; 2; 2; 2] eq_refl ltac:(lia))
    as (_ & Hid & _).
  apply Hid.
  - reflexivity.
  - intros x st. exists {[ "image" := x ]}, st. split; [reflexivity|].
    apply lookup_singleton_eq.
Defined.



Lemma EdemaHead_forward_spec_witness :
  exists out : Tensor Z,
    Classifier.forward Z.add Z.mul 0%Z Samples.head Samples.tokens = Ok out /\
    shape out = [1; 2] /\
    Classifier.forward Z.add Z.mul 0%Z Samples.head Samples.tokens' = Ok out.
Proof.
  destruct (ClassifierFacts.EdemaHead_forward_spec Z.add Z.mul 0%Z
              Samples.head Samples.tokens 1 2 2
              eq_refl ltac:(lia) eq_refl eq_refl)
    as (out & Hrun & Hs & _ & _ & _ & Hother).
  exists out. split; [exact Hrun|]. split; [exact Hs|].
  apply Hother; [reflexivity|].
  intros b e Hb He.
  assert (b = 0) as -> by lia.
  assert (e = 0 \/ e = 1) as [-> | ->] by lia; reflexivity.
Defined.

End Witnesses.

(** ** The further theorems at sample inputs *)

Module MoreWitnesses.
Import Torch Transforms.

Lemma rotation_output_shape_witness :
  exists (out : Tensor Z) (label : Z),
    random_rotation_single MoreSamples.slab (Scripted.world [0; 1]%Z [])
      = (Ok (out, label),
         Expect.after_two_draws (Scripted.world [0; 1]%Z [])) /\
    shape out = [1; 2; 2; 3].
Proof.
  destruct (RotationMore.rotation_output_shape MoreSamples.slab
              (Scripted.world [0; 1]%Z []))
    as (out & label & Hrun & Hs & _).
  - unfold rank; simpl; lia.
  - exists out, label. split; [exact Hrun|]. rewrite Hs. reflexivity.
Defined.

Lemma rotation_keeps_elements_witness :
  exists (out : Tensor Z) (label : Z),
    random_rotation_single Samples.vol (Scripted.world [1; 3]%Z [])
      = (Ok (out, label),
         Expect.after_two_draws (Scripted.world [1; 3]%Z [])) /\
    wf out /\
    Permutation (data out) (data Samples.vol).
Proof.
  apply (RotationMore.rotation_keeps_elements Samples.vol
           (Scripted.world [1; 3]%Z [])).
  - reflexivity.
  - unfold rank; simpl; lia.
Defined.

Lemma rotation_label_decodes_witness :
  exists (out : Tensor Z) (label : Z),
    random_rotation_single Samples.vol (Scripted.world [1; 3]%Z [])
      = (Ok (out, label),
         Expect.after_two_draws (Scripted.world [1; 3]%Z [])) /\
    (0 <= label <= 11)%Z /\
    rot90 out (4 - label mod 4) (Spec.rotation_plane (label / 4))
      = Ok Samples.vol.
Proof.
  destruct (RotationMore.rotation_label_decodes Samples.vol
              (Scripted.world [1; 3]%Z []))
    as (out & label & Hrun & Hl & _ & _ & _ & Hinv).
  - reflexivity.
  - unfold rank; simpl; lia.
  - exists out, label. repeat split; try apply Hl; assumption.
Defined.

Lemma rotation_low_rank_witness :
  random_rotation_single MoreSamples.vector (Scripted.world [2; 1]%Z [])
    = (Raise RuntimeError,
       Expect.after_two_draws (Scripted.world [2; 1]%Z [])) /\
  random_rotation_single MoreWorlds.matrix23 (Scripted.world [2; 1]%Z [])
    = (Raise IndexError,
       Expect.after_two_draws (Scripted.world [2; 1]%Z [])) /\
  (exists out,
     random_rotation_single MoreSamples.cube3 (Scripted.world [2; 1]%Z [])
       = (Ok (out, 9%Z),
          Expect.after_two_draws (Scripted.world [2; 1]%Z []))) /\
  random_rotation_single MoreSamples.cube3 (Scripted.world [0; 1]%Z [])
    = (Raise IndexError,
       Expect.after_two_draws (Scripted.world [0; 1]%Z [])).
Proof.
  split; [|split; [|split]].
  - apply (proj1 (RotationMore.rotation_low_rank MoreSamples.vector
                    (Scripted.world [2; 1]%Z []))).
    unfold rank; simpl; lia.
  - apply (proj1 (proj2 (RotationMore.rotation_low_rank MoreWorlds.matrix23
                           (Scripted.world [2; 1]%Z [])))).
    reflexivity.
  - destruct (RotationMore.rotation_low_rank MoreSamples.cube3
                (Scripted.world [2; 1]%Z [])) as (_ & _ & Hthree).
    destruct (Hthree eq_refl) as [Hturned _].
    destruct Hturned as (out & Hrun); [reflexivity|].
    exists out. exact Hrun.
  - apply (proj2 (proj2 (proj2 (RotationMore.rotation_low_rank
                                  MoreSamples.cube3
                                  (Scripted.world [0; 1]%Z []))) eq_refl)).
    vm_compute. discriminate.
Defined.

Lemma rotations_compose_witness :
  exists mid out : Tensor Z,
    fst (random_rotation_single Samples.vol (Scripted.world [1; 3]%Z []))
      = Ok (mid, 7%Z) /\
    fst (random_rotation_single mid (Scripted.world [1; 2]%Z []))
      = Ok (out, 6%Z) /\
    fst (random_rotation_single Samples.vol (Scripted.world [1; 1]%Z []))
      = Ok (out, 5%Z).
Proof.
  apply (RotationMore.rotations_compose Samples.vol
           (Scripted.world [1; 3]%Z []) (Scripted.world [1; 2]%Z [])
           (Scripted.world [1; 1]%Z []) 1 3 2);
    first [reflexivity | lia | unfold rank; simpl; lia].
Defined.

Lemma jigsaw_low_rank_witness :
  random_jigsaw_single MoreSamples.vector (Scripted.world [0%Z] [])
    = (Raise IndexError, Expect.after_coin (Scripted.world [0%Z] [])) /\
  random_jigsaw_single MoreSamples.vector
      (Scripted.world [9007199254740991%Z] [])
    = (Ok (MoreSamples.vector, 0%Z),
       Expect.after_coin (Scripted.world [9007199254740991%Z] [])).
Proof.
  split.
  - apply (proj1 (JigsawMore.jigsaw_low_rank MoreSamples.vector
                    (Scripted.world [0%Z] [])
                    ltac:(unfold rank; simpl; lia))).
    reflexivity.
  - apply (proj2 (JigsawMore.jigsaw_low_rank MoreSamples.vector
                    (Scripted.world [9007199254740991%Z] [])
                    ltac:(unfold rank; simpl; lia))).
    vm_compute. discriminate.
Defined.

Lemma jigsaw_single_slice_witness :
  exists label : Z,
    fst (random_jigsaw_single MoreSamples.flat_vol
           (Scripted.world [0%Z] [5%Z]))
      = Ok (MoreSamples.flat_vol, label) /\
    (label = 0%Z \/ label = 1%Z).
Proof.
  apply (JigsawMore.jigsaw_single_slice MoreSamples.flat_vol
           (Scripted.world [0%Z] [5%Z])).
  - reflexivity.
  - unfold rank; simpl; lia.
  - simpl; lia.
Defined.

Lemma jigsaw_keeps_elements_witness :
  exists (out : Tensor Z) (label : Z),
    fst (random_jigsaw_single Samples.vol (Scripted.world [0%Z] [1; 0]%Z))
      = Ok (out, label) /\
    wf out /\
    Permutation (data out) (data Samples.vol).
Proof.
  apply (JigsawMore.jigsaw_keeps_elements Samples.vol
           (Scripted.world [0%Z] [1; 0]%Z)).
  - reflexivity.
  - unfold rank; simpl; lia.
Defined.

Lemma jigsaw_undone_by_inverse_witness :
  exists out : Tensor Z,
    fst (random_jigsaw_single Samples.vol (Scripted.world [0%Z] [1; 0]%Z))
      = Ok (out, 1%Z) /\
    index_dim1 out [1; 0] = Ok Samples.vol.
Proof.
  apply (JigsawMore.jigsaw_undone_by_inverse Samples.vol
           (Scripted.world [0%Z] [1; 0]%Z) [1; 0]).
  - reflexivity.
  - unfold rank; simpl; lia.
  - reflexivity.
  - reflexivity.
  - repeat constructor.
  - intros j Hj. simpl in Hj.
    destruct j as [|[|j]]; [reflexivity | reflexivity | lia].
Defined.

Lemma augment_batch_first_failure_witness :
  augment_batch Samples.batch MoreSamples.picky_tf 0
    = (Raise ValueError, 2) /\
  augment_batch Samples.batch MoreSamples.forgetful_tf 0
    = (Raise KeyError, 1).
Proof.
  split.
  - assert (Happ : Spec.applied_in_order MoreSamples.picky_tf
                     (map (select_dim0 Samples.batch) (seq 0 1)) 0
                     [select_dim0 Samples.batch 0] 1).
    { eapply Spec.applied_cons; [reflexivity | reflexivity |].
      apply Spec.applied_nil. }
    apply (proj1 (BatchMore.augment_batch_first_failure Samples.batch
                    MoreSamples.picky_tf 0 2 1 [1; 2; 2; 2]
                    [select_dim0 Samples.batch 0] 1 2
                    eq_refl (le_n 2) Happ)).
    reflexivity.
  - assert (Happ : Spec.applied_in_order MoreSamples.forgetful_tf
                     (map (select_dim0 Samples.batch) (seq 0 0)) 0 [] 0)
      by apply Spec.applied_nil.
    apply (proj2 (BatchMore.augment_batch_first_failure Samples.batch
                    MoreSamples.forgetful_tf 0 2 0 [1; 2; 2; 2]
                    [] 0 1
                    eq_refl (le_S 1 1 (le_n 1)) Happ)
             (delete "image" {[ "image" := select_dim0 Samples.batch 0 ]})).
    + reflexivity.
    + reflexivity.
Defined.

Lemma augment_batch_shape_mismatch_witness :
  augment_batch Samples.batch MoreSamples.cropping_tf 0
    = (Raise RuntimeError, 2).
Proof.
  apply (BatchMore.augment_batch_shape_mismatch Samples.batch
           MoreSamples.cropping_tf 0 2 [1; 2; 2; 2]
           [select_dim0 Samples.batch 0;
            select_dim0 (select_dim0 Samples.batch 1) 0]
           2 0 1
           (select_dim0 Samples.batch 0)
           (select_dim0 (select_dim0 Samples.batch 1) 0)).
  - reflexivity.
  - eapply Spec.applied_cons; [reflexivity | reflexivity |].
    eapply Spec.applied_cons; [reflexivity | reflexivity |].
    apply Spec.applied_nil.
  - reflexivity.
  - reflexivity.
  - vm_compute. discriminate.
Defined.

Lemma create_mask_device_generator_witness :
  fst (create_mask [2] 0.3 cpu
         (MoreWorlds.cpu_world [1%Z] [3; 16777215]%Z [9%Z]))
    = fst (create_mask [2] 0.3 cpu (Scripted.world [2%Z] [3; 16777215]%Z)).
Proof.
  apply (proj1 (MaskMore.create_mask_device_generator [2] 0.3 cpu
                  (MoreWorlds.cpu_world [1%Z] [3; 16777215]%Z [9%Z])
                  (Scripted.world [2%Z] [3; 16777215]%Z) eq_refl)).
Defined.


Lemma forward_on_matrix_witness :
  Classifier.forward Z.add Z.mul 0%Z Samples.head MoreWorlds.matrix32
    = Raise RuntimeError /\
  exists out,
    Classifier.forward Z.add Z.mul 0%Z Samples.head MoreWorlds.matrix23
      = Ok out /\
    shape out = [2].
Proof.
  split.
  - apply (proj1 (ClassifierMore.forward_on_matrix Z.add Z.mul 0%Z
                    Samples.head MoreWorlds.matrix32 3 2
                    eq_refl ltac:(lia))).
    simpl. lia.
  - apply (proj2 (ClassifierMore.forward_on_matrix Z.add Z.mul 0%Z
                    Samples.head MoreWorlds.matrix23 2 3
                    eq_refl ltac:(lia))).
    reflexivity.
Defined.

Lemma forward_rows_independent_witness :
  exists out out' : Tensor Z,
    Classifier.forward Z.add Z.mul 0%Z Samples.head MoreWorlds.two_samples
      = Ok out /\
    Classifier.forward Z.add Z.mul 0%Z Samples.head MoreWorlds.two_samples'
      = Ok out' /\
    shape out = [2; 2] /\
    shape out' = [2; 2] /\
    forall j, j < 2 -> get out' [0; j] = get out [0; j].
Proof.
  apply (ClassifierMore.forward_rows_independent Z.add Z.mul 0%Z
           Samples.head MoreWorlds.two_samples MoreWorlds.two_samples'
           2 1 2 0);
    try reflexivity; try lia.
  intros e He. destruct e as [|[|e]]; [reflexivity | reflexivity | lia].
Defined.

Lemma M3T_Edema_forward_spec_witness :
  exists out : Tensor Z,
    Model.M3T_Edema_forward Z.add Z.mul 0%Z (MoreSamples.echo_encoder 7)
      MoreWorlds.model Samples.tokens = Ok out /\
    shape out = [1; 2].
Proof.
  destruct (proj2 (ClassifierMore.M3T_Edema_forward_spec Z.add Z.mul 0%Z
                     (fun _ => Ok tt) (MoreSamples.echo_encoder 7)
                     MoreSamples.config
                     (mkTensor [2; 2] [1; 0; 0; 1]%Z) (mkTensor [2] [10; 20]%Z)
                     MoreWorlds.model Samples.tokens eq_refl)
              Samples.tokens 7 1 2 2 eq_refl eq_refl ltac:(lia))
    as [_ Hok].
  destruct (Hok eq_refl) as (out & Hrun & Hs & _).
  exists out. split; assumption.
Defined.

End MoreWitnesses.
